(** * github-commit MCP server: a shallow embedding of [src/index.ts]

  The server registers two resources, four tools and (in the earlier
  stdio revision of the file) one prompt with the MCP SDK, keeps the open
  SSE transports in a plain JavaScript object and installs process-level
  shutdown hooks.  This development embeds those handlers as Rocq
  functions and states the properties of the specification against them.

  Conventions
  - JavaScript strings are Rocq [string]s (code units below 256).
  - [undefined] for an optional field is [None].
  - The collaborators the handlers call into (child_process [exec], the
    Octokit client) are oracles over an abstract world; every call is
    recorded in the handler's trace.
  - A handler body runs to completion between two events of the event
    loop; the suspension points inside one handler are not interleaved. *)

From Stdlib Require Import ZArith Lia Ascii DecimalString.
From stdpp Require Import base list strings.

Local Open Scope Z_scope.

(** ** JavaScript primitives used by the handlers *)
Module Js.

(** The escape [\n] of the source's string literals. *)
Definition LF : string := String "010"%char EmptyString.

(** The double-quote character that [git commit -m] wraps around the message. *)
Definition DQUOTE : string := String "034"%char EmptyString.

(** ToBoolean on a string: only the empty string is falsy. *)
Definition truthy (s : string) : bool :=
  match s with
  | EmptyString => false
  | String _ _ => true
  end.

(** ToBoolean on [string | undefined]. *)
Definition truthy_opt (o : option string) : bool :=
  match o with
  | Some s => truthy s
  | None => false
  end.

(** ToString as performed by a template literal [`${x}`] and by a
    computed property key. *)
Definition to_string (o : option string) : string :=
  match o with
  | Some s => s
  | None => "undefined"
  end.

(** Number to string, for integral numbers. *)
Definition number_to_string (n : Z) : string :=
  NilZero.string_of_int (Z.to_int n).

(** [Array.prototype.join]. *)
Fixpoint join (sep : string) (l : list string) : string :=
  match l with
  | [] => EmptyString
  | [x] => x
  | x :: rest => x +:+ sep +:+ join sep rest
  end.

(** WhiteSpace and LineTerminator code units below 256. *)
Definition is_whitespace (c : ascii) : bool :=
  match c with
  | "009" | "010" | "011" | "012" | "013" | " " | "160" => true
  | _ => false
  end%char.

Fixpoint trimStart (s : string) : string :=
  match s with
  | EmptyString => EmptyString
  | String c rest => if is_whitespace c then trimStart rest else s
  end.

Fixpoint trimEnd (s : string) : string :=
  match s with
  | EmptyString => EmptyString
  | String c rest =>
      match trimEnd rest with
      | EmptyString => if is_whitespace c then EmptyString else String c EmptyString
      | kept => String c kept
      end
  end.

(** [String.prototype.trim]. *)
Definition trim (s : string) : string := trimEnd (trimStart s).

Fixpoint startsWith (s prefix : string) : bool :=
  match prefix, s with
  | EmptyString, _ => true
  | String p prefix', String c s' =>
      if decide (p = c) then startsWith s' prefix' else false
  | String _ _, EmptyString => false
  end.

(** [String.prototype.includes]. *)
Fixpoint includes (s needle : string) : bool :=
  startsWith s needle
  || match s with
     | EmptyString => false
     | String _ s' => includes s' needle
     end.

Definition endsWith (s suffix : string) : bool :=
  startsWith (String.rev s) (String.rev suffix).

(** A value that reaches a [catch] clause.  [instanceof_Error] answers
    [error instanceof Error], [status] is the own property read by
    ['status' in error && error.status]. *)
Record Thrown := {
    instanceof_Error : bool;
    name : string;
    message : string;
    status : option Z
  }.

(** [new Error(msg)]. *)
Definition Error (msg : string) : Thrown :=
  {| instanceof_Error := true; name := "Error"; message := msg; status := None |}.

(** The TypeError raised by calling a property that is [undefined]. *)
Definition TypeError (msg : string) : Thrown :=
  {| instanceof_Error := true; name := "TypeError"; message := msg; status := None |}.

End Js.

(** ** Plain JavaScript objects used as string-keyed maps

  [const transports: { [sessionId: string]: SSEServerTransport } = {}]
  is an ordinary object literal: its own properties are kept in insertion
  order (the keys stored by the server are UUIDs, never array indices),
  and a property read that finds no own property continues along the
  prototype chain into [Object.prototype]. *)
Module JsObject.

(** Property names of [Object.prototype]. Each holds a function, or the
    prototype object itself for [__proto__]; all of them are truthy. *)
Definition Object_prototype_keys : list string :=
  [ "constructor"; "__defineGetter__"; "__defineSetter__"; "hasOwnProperty";
    "__lookupGetter__"; "__lookupSetter__"; "isPrototypeOf";
    "propertyIsEnumerable"; "toString"; "valueOf"; "__proto__";
    "toLocaleString" ].

Section object.
Context {V : Type}.

(** Own enumerable properties, oldest first. *)
Definition t : Type := list (string * V).

Definition empty : t := [].

Fixpoint own (o : t) (k : string) : option V :=
  match o with
  | [] => None
  | (k', v) :: rest => if decide (k' = k) then Some v else own rest k
  end.

(** Result of the property read [o[k]]. *)
Inductive Lookup :=
  | Undefined
  | Inherited (key : string)
  | Own (v : V).

Definition get (o : t) (k : string) : Lookup :=
  match own o k with
  | Some v => Own v
  | None =>
      if bool_decide (k ∈ Object_prototype_keys) then Inherited k else Undefined
  end.

(** ToBoolean of a property read. *)
Definition truthy (r : Lookup) : bool :=
  match r with
  | Undefined => false
  | Inherited _ | Own _ => true
  end.

(** The assignment [o[k] = v] for an ordinary key: an existing own
    property keeps its position, a new one is added last. Two kinds of
    keys are outside this description: [__proto__], for which the
    assignment sets the prototype instead of creating an own property, and
    array indices, which a plain object lists before all other keys in
    numeric order. The statements that depend on either are restricted to
    [ordinary_key]s, which every UUID is. *)
Fixpoint set (o : t) (k : string) (v : V) : t :=
  match o with
  | [] => [(k, v)]
  | (k', v') :: rest =>
      if decide (k' = k) then (k, v) :: rest else (k', v') :: set rest k v
  end.

(** [delete o[k]]. *)
Fixpoint delete (o : t) (k : string) : t :=
  match o with
  | [] => []
  | (k', v') :: rest =>
      if decide (k' = k) then delete rest k else (k', v') :: delete rest k
  end.

(** [Object.keys] and [Object.values]. *)
Definition keys (o : t) : list string := o.*1.
Definition values (o : t) : list V := o.*2.
End object.

Arguments t : clear implicits.
Arguments Lookup : clear implicits.

End JsObject.

(** ** Data exchanged with the collaborators *)

(** What [execAsync] resolves to. *)
Record ExecOutput := { stdout : string; stderr : string }.

(** The part of a commit of the REST API that the handlers read:
  [commit.sha], [commit.commit.author?.name], [commit.commit.message],
  [commit.commit.author?.date]. *)
Module Commit.
Record GitUser := { name : option string; date : option string }.
Record Detail := { author : option GitUser; message : string }.
Record t := { sha : string; commit : Detail }.
End Commit.

(** The part of a pull request that the handlers read. *)
Module Pull.
Record User := { login : string }.
Record t := {
    number : Z;
    title : string;
    user : option User;
    state : string;
    created_at : string;
    updated_at : string
  }.
End Pull.

(** Argument objects of the four Octokit calls. A field is an [option]
  where the handler can pass [undefined]. *)
Module ListCommits.
Record params := {
    owner : option string;
    repo : option string;
    sha : option string;
    per_page : Z
  }.
End ListCommits.

Module PullsList.
Record params := {
    owner : option string;
    repo : option string;
    state : string;
    sort : string;
    direction : string
  }.
End PullsList.

Module PullsMerge.
Record params := {
    owner : option string;
    repo : option string;
    pull_number : option Z;
    merge_method : string;
    commit_message : option string
  }.
Record data := { sha : string; message : string }.
End PullsMerge.

Module PullsCreate.
Record params := {
    owner : option string;
    repo : option string;
    title : option string;
    body : option string;
    head : option string;
    base : option string
  }.
Record data := { number : Z; html_url : string }.
End PullsCreate.

(** How a promise settles. *)
Inductive Completion (A : Type) :=
| Resolved (a : A)
| Rejected (e : Js.Thrown).
Arguments Resolved {A} a.
Arguments Rejected {A} e.

(** The outside world of the handlers: the shell behind [execAsync] and the
  remote API behind [octokit]. Each call may change the world. *)
Class Collaborators := {
  World : Type;
  execAsync : string → option string → World → Completion ExecOutput * World;
  octokit_repos_listCommits :
    ListCommits.params → World → Completion (list Commit.t) * World;
  octokit_pulls_list :
    PullsList.params → World → Completion (list Pull.t) * World;
  octokit_pulls_merge :
    PullsMerge.params → World → Completion PullsMerge.data * World;
  octokit_pulls_create :
    PullsCreate.params → World → Completion PullsCreate.data * World
}.

(** What a handler does to the outside, in program order. *)
Inductive Effect :=
| Exec (command : string) (cwd : option string)
| ReposListCommits (p : ListCommits.params)
| OctokitPullsList (p : PullsList.params)
| OctokitPullsMerge (p : PullsMerge.params)
| OctokitPullsCreate (p : PullsCreate.params)
| ConsoleError (label : string).

(** Whether an effect leaves the process (a shell command or a remote call). *)
Definition is_external_call (e : Effect) : bool :=
  match e with
  | ConsoleError _ => false
  | _ => true
  end.

(** ** Async functions as a state, exception and trace monad *)
Module Async.
Section monad.
Context {collab : Collaborators}.

Definition t (A : Type) : Type := World → Completion A * World * list Effect.

Definition ret {A} (a : A) : t A := λ w, (Resolved a, w, []).

Definition throw {A} (e : Js.Thrown) : t A := λ w, (Rejected e, w, []).

Definition bind {A B} (m : t A) (k : A → t B) : t B :=
  λ w,
    match m w with
    | (Resolved a, w1, tr1) =>
        let '(r, w2, tr2) := k a w1 in (r, w2, tr1 ++ tr2)
    | (Rejected e, w1, tr1) => (Rejected e, w1, tr1)
    end.

(** [try { m } catch (error) { handler error }]. *)
Definition try_catch {A} (m : t A) (handler : Js.Thrown → t A) : t A :=
  λ w,
    match m w with
    | (Resolved a, w1, tr1) => (Resolved a, w1, tr1)
    | (Rejected e, w1, tr1) =>
        let '(r, w2, tr2) := handler e w1 in (r, w2, tr1 ++ tr2)
    end.

(** A call into a collaborator, recorded in the trace. *)
Definition call {A} (what : Effect) (f : World → Completion A * World) : t A :=
  λ w, let '(r, w1) := f w in (r, w1, [what]).

Definition console_error (label : string) : t unit :=
  λ w, (Resolved (), w, [ConsoleError label]).

Definition outcome {A} (r : Completion A * World * list Effect) : Completion A := r.1.1.
Definition world {A} (r : Completion A * World * list Effect) : World := r.1.2.
Definition trace {A} (r : Completion A * World * list Effect) : list Effect := r.2.
End monad.

Arguments t {_} A.
End Async.

(** An awaited call followed by the rest of the body is monadic sequencing,
  written with the notations [x ← m; k] and [m;; k] of the monad classes. *)
#[global] Instance async_ret {collab : Collaborators} : MRet Async.t := @Async.ret _.
#[global] Instance async_bind {collab : Collaborators} : MBind Async.t :=
  λ A B k m, Async.bind m k.

(** ** Results handed back to the MCP SDK *)
Module Resource.
Record item := { uri : string; text : string }.
Record result := { contents : list item }.
End Resource.

Module Tool.
Record item := { type : string; text : string }.
Record result := { content : list item }.
End Tool.

Module Prompt.
Record message := { role : string; content : Tool.item }.
Record result := { messages : list message }.
End Prompt.

(** Argument bags of the tools, as read through the casts
  [extra as unknown as { ... }]: any field may be [undefined] at run time. *)
Module GenerateCommitMessage.
Record params := {
    changes : option string;
    context : option string;
    repoPath : option string
  }.
End GenerateCommitMessage.

Module MergePullRequest.
Record params := {
    owner : option string;
    repo : option string;
    pullNumber : option Z;
    mergeMethod : option string;
    commitMessage : option string
  }.
End MergePullRequest.

Module CreatePullRequest.
Record params := {
    owner : option string;
    repo : option string;
    title : option string;
    body : option string;
    head : option string;
    base : option string
  }.
End CreatePullRequest.

Module CommitChanges.
Record params := {
    repoPath : option string;
    message : option string;
    files : option (list string)
  }.
End CommitChanges.

(** ToBoolean and ToString on [number | undefined]. *)
Definition truthy_number (n : option Z) : bool :=
  match n with
  | Some n => negb (n =? 0)
  | None => false
  end.

Definition number_opt_to_string (n : option Z) : string :=
  match n with
  | Some n => Js.number_to_string n
  | None => "undefined"
  end.

(** ** The handlers of [src/index.ts] *)
Section handlers.
Context {collab : Collaborators}.
Import Js.

(** [execAsync(command, { cwd })]. *)
Definition exec (command : string) (cwd : option string) : Async.t ExecOutput :=
  Async.call (Exec command cwd) (execAsync command cwd).

Definition repos_listCommits (p : ListCommits.params) : Async.t (list Commit.t) :=
  Async.call (ReposListCommits p) (octokit_repos_listCommits p).

Definition pulls_list (p : PullsList.params) : Async.t (list Pull.t) :=
  Async.call (OctokitPullsList p) (octokit_pulls_list p).

Definition pulls_merge (p : PullsMerge.params) : Async.t PullsMerge.data :=
  Async.call (OctokitPullsMerge p) (octokit_pulls_merge p).

Definition pulls_create (p : PullsCreate.params) : Async.t PullsCreate.data :=
  Async.call (OctokitPullsCreate p) (octokit_pulls_create p).

Definition getGitStatus (repoPath : option string) : Async.t (string * string) :=
  Async.try_catch
    (status ← exec "git status --porcelain" repoPath;
     diff ← exec "git diff" repoPath;
     Async.ret (stdout status, stdout diff))
    (λ error,
       Async.console_error "Error getting git status:";;
       Async.throw (Error "Failed to get git status")).

Definition getCurrentBranch (repoPath : option string) : Async.t string :=
  Async.try_catch
    (out ← exec "git branch --show-current" repoPath;
     Async.ret (trim (stdout out)))
    (λ error,
       Async.console_error "Error getting current branch:";;
       Async.throw (Error "Failed to get current branch")).

(** Resource [github-commits], [github://{owner}/{repo}/commits/{branch?}]. *)
Definition github_commits (href : string) (owner repo branch : option string)
  : Async.t Resource.result :=
  if negb (truthy_opt owner) || negb (truthy_opt repo) then
    Async.throw (Error "Owner and repository parameters are required")
  else
    Async.try_catch
      (commits ← repos_listCommits
         {| ListCommits.owner := owner; ListCommits.repo := repo;
            ListCommits.sha := branch; ListCommits.per_page := 10 |};
       Async.ret
         {| Resource.contents :=
              map (λ commit,
                     {| Resource.uri := href;
                        Resource.text :=
                          "Commit: " +:+ Commit.sha commit +:+ LF
                          +:+ "Author: "
                          +:+ to_string (Commit.author (Commit.commit commit) ≫= Commit.name)
                          +:+ LF
                          +:+ "Message: " +:+ Commit.message (Commit.commit commit) +:+ LF
                          +:+ "Date: "
                          +:+ to_string (Commit.author (Commit.commit commit) ≫= Commit.date)
                     |})
                  commits |})
      (λ error,
         (if instanceof_Error error then
            Async.console_error "Error fetching commits:";;
            if decide (status error = Some 404) then
              Async.throw
                (Error ("Repository " +:+ to_string owner +:+ "/"
                        +:+ to_string repo +:+ " not found"))
            else if decide (status error = Some 403) then
              Async.throw
                (Error "Access denied. Please check your GitHub token permissions")
            else Async.ret ()
          else Async.ret ());;
         Async.throw (Error "Failed to fetch commits. Please try again later.")).

(** Resource [github-pulls], [github://{owner}/{repo}/pulls]. *)
Definition github_pulls (href : string) (owner repo : option string)
  : Async.t Resource.result :=
  if negb (truthy_opt owner) || negb (truthy_opt repo) then
    Async.throw (Error "Owner and repository parameters are required")
  else
    Async.try_catch
      (pulls ← pulls_list
         {| PullsList.owner := owner; PullsList.repo := repo;
            PullsList.state := "open"; PullsList.sort := "updated";
            PullsList.direction := "desc" |};
       Async.ret
         {| Resource.contents :=
              map (λ pr,
                     {| Resource.uri := href;
                        Resource.text :=
                          "PR #" +:+ number_to_string (Pull.number pr) +:+ ": "
                          +:+ Pull.title pr +:+ LF
                          +:+ "Author: " +:+ to_string (Pull.login <$> Pull.user pr) +:+ LF
                          +:+ "Status: " +:+ Pull.state pr +:+ LF
                          +:+ "Created: " +:+ Pull.created_at pr +:+ LF
                          +:+ "Updated: " +:+ Pull.updated_at pr
                     |})
                  pulls |})
      (λ error,
         Async.console_error "Error fetching pull requests:";;
         Async.throw (Error "Failed to fetch pull requests")).

(** Tool [generate-commit-message]. *)
Definition generate_commit_message (params : GenerateCommitMessage.params)
  : Async.t Tool.result :=
  Async.try_catch
    (changes ←
       (if negb (truthy_opt (GenerateCommitMessage.changes params))
           && truthy_opt (GenerateCommitMessage.repoPath params)
        then
          '(status, diff) ← getGitStatus (GenerateCommitMessage.repoPath params);
          Async.ret (Some ("Git Status:" +:+ LF +:+ status +:+ LF +:+ LF
                           +:+ "Diff:" +:+ LF +:+ diff))
        else Async.ret (GenerateCommitMessage.changes params));
     if negb (truthy_opt changes) then
       Async.throw (Error "Changes parameter is required or repo path must be provided")
     else
       Async.ret
         {| Tool.content :=
              [ {| Tool.type := "text";
                   Tool.text :=
                     "Please generate a clear and descriptive commit message for the following changes:"
                     +:+ LF +:+ LF +:+ to_string changes +:+ LF +:+ LF
                     +:+ (if truthy_opt (GenerateCommitMessage.context params)
                          then "Additional context:" +:+ LF
                               +:+ to_string (GenerateCommitMessage.context params)
                          else EmptyString) |} ] |})
    (λ error,
       Async.console_error "Error generating commit message:";;
       Async.throw (Error "Failed to generate commit message. Please try again.")).

(** Tool [merge-pull-request]. *)
Definition merge_pull_request (params : MergePullRequest.params)
  : Async.t Tool.result :=
  Async.try_catch
    (if negb (truthy_opt (MergePullRequest.owner params))
        || negb (truthy_opt (MergePullRequest.repo params))
        || negb (truthy_number (MergePullRequest.pullNumber params))
     then Async.throw (Error "Owner, repo, and pull request number are required")
     else
       mergeResult ← pulls_merge
         {| PullsMerge.owner := MergePullRequest.owner params;
            PullsMerge.repo := MergePullRequest.repo params;
            PullsMerge.pull_number := MergePullRequest.pullNumber params;
            PullsMerge.merge_method :=
              (if truthy_opt (MergePullRequest.mergeMethod params)
               then to_string (MergePullRequest.mergeMethod params)
               else "merge");
            PullsMerge.commit_message := MergePullRequest.commitMessage params |};
       Async.ret
         {| Tool.content :=
              [ {| Tool.type := "text";
                   Tool.text :=
                     "Pull request #"
                     +:+ number_opt_to_string (MergePullRequest.pullNumber params)
                     +:+ " merged successfully." +:+ LF
                     +:+ "Merge SHA: " +:+ PullsMerge.sha mergeResult +:+ LF
                     +:+ "Message: " +:+ PullsMerge.message mergeResult |} ] |})
    (λ error,
       Async.console_error "Error merging pull request:";;
       Async.throw (Error "Failed to merge pull request")).

(** Tool [create-pull-request]. *)
Definition create_pull_request (params : CreatePullRequest.params)
  : Async.t Tool.result :=
  Async.try_catch
    (if negb (truthy_opt (CreatePullRequest.owner params))
        || negb (truthy_opt (CreatePullRequest.repo params))
        || negb (truthy_opt (CreatePullRequest.title params))
        || negb (truthy_opt (CreatePullRequest.head params))
        || negb (truthy_opt (CreatePullRequest.base params))
     then
       Async.throw
         (Error "Owner, repo, title, head branch, and base branch are required")
     else
       pr ← pulls_create
         {| PullsCreate.owner := CreatePullRequest.owner params;
            PullsCreate.repo := CreatePullRequest.repo params;
            PullsCreate.title := CreatePullRequest.title params;
            PullsCreate.body := CreatePullRequest.body params;
            PullsCreate.head := CreatePullRequest.head params;
            PullsCreate.base := CreatePullRequest.base params |};
       Async.ret
         {| Tool.content :=
              [ {| Tool.type := "text";
                   Tool.text :=
                     "Pull request created successfully." +:+ LF
                     +:+ "Number: #" +:+ number_to_string (PullsCreate.number pr) +:+ LF
                     +:+ "URL: " +:+ PullsCreate.html_url pr |} ] |})
    (λ error,
       Async.console_error "Error creating pull request:";;
       Async.throw (Error "Failed to create pull request")).

(** The staging command of [commit-changes]. An array is truthy even
    when empty, so only its length decides. *)
Definition stage_command (files : option (list string)) : string :=
  match files with
  | Some ((_ :: _) as named) => "git add " +:+ join " " named
  | Some [] | None => "git add ."
  end.

(** The commit command of [commit-changes]: the message between double
    quotes. *)
Definition commit_command (message : option string) : string :=
  "git commit -m " +:+ DQUOTE +:+ to_string message +:+ DQUOTE.

(** Tool [commit-changes]. *)
Definition commit_changes (params : CommitChanges.params) : Async.t Tool.result :=
  Async.try_catch
    (if negb (truthy_opt (CommitChanges.repoPath params))
        || negb (truthy_opt (CommitChanges.message params))
     then Async.throw (Error "Repository path and commit message are required")
     else
       exec (stage_command (CommitChanges.files params)) (CommitChanges.repoPath params);;
       exec (commit_command (CommitChanges.message params))
            (CommitChanges.repoPath params);;
       commitHash ← exec "git rev-parse HEAD" (CommitChanges.repoPath params);
       Async.ret
         {| Tool.content :=
              [ {| Tool.type := "text";
                   Tool.text :=
                     "Changes committed successfully." +:+ LF
                     +:+ "Commit Hash: " +:+ trim (stdout commitHash) |} ] |})
    (λ error,
       Async.console_error "Error committing changes:";;
       Async.throw (Error "Failed to commit changes")).
End handlers.

(** ** The earlier stdio revision: schema-checked tool and prompt

  There [changes] is a required string ([z.string()]) and [context] an
  optional one; both capabilities are pure. *)
Module Stdio.
Import Js.

Definition generate_commit_message (changes : string) (context : option string)
  : Tool.result :=
  {| Tool.content :=
       [ {| Tool.type := "text";
            Tool.text :=
              "Please generate a clear and descriptive commit message for the following changes:"
              +:+ LF +:+ LF +:+ changes +:+ LF +:+ LF
              +:+ (if truthy_opt context
                   then "Additional context:" +:+ LF +:+ to_string context
                   else EmptyString) |} ] |}.

Definition commit_message (changes : string) (context : option string)
  : Prompt.result :=
  {| Prompt.messages :=
       [ {| Prompt.role := "user";
            Prompt.content :=
              {| Tool.type := "text";
                 Tool.text :=
                   "Please generate a clear and descriptive commit message for the following changes:"
                   +:+ LF +:+ LF +:+ changes +:+ LF +:+ LF
                   +:+ (if truthy_opt context
                        then "Additional context:" +:+ LF +:+ to_string context
                        else EmptyString) |} |} ] |}.
End Stdio.

(** ** Session transports: the [/sse] and [/messages] endpoints *)

(** [new SSEServerTransport('/messages', res)]: the SDK's constructor draws
  [sessionId] from [randomUUID()]; [res] names the response stream. *)
Record SSEServerTransport := {
  endpoint : string;
  res : nat;
  sessionId : string
}.

Module Server.
Import JsObject.

(** [const transports = {}]. *)
Definition transports_init : JsObject.t SSEServerTransport := JsObject.empty.

(** [app.get('/sse')] up to its first suspension: the transport is built
    around the response [res], with the id [uuid] the constructor drew,
    and stored; [server.connect(transport)] follows. *)
Definition get_sse (res : nat) (uuid : string)
    (transports : JsObject.t SSEServerTransport)
  : JsObject.t SSEServerTransport * SSEServerTransport :=
  let transport := {| endpoint := "/messages"; res := res; sessionId := uuid |} in
  (JsObject.set transports (sessionId transport) transport, transport).

(** The listener [res.on('close')] registered for [transport]. *)
Definition res_on_close (transport : SSEServerTransport)
    (transports : JsObject.t SSEServerTransport)
  : JsObject.t SSEServerTransport :=
  JsObject.delete transports (sessionId transport).

(** What [app.post('/messages')] does with a request. *)
Inductive PostOutcome :=
  | HandlePostMessage (transport : SSEServerTransport)
      (* the request is handed to the SDK transport, which dispatches it *)
  | Send (status : Z) (body : string)
      (* [res.status(status).send(body)] *)
  | Throws (e : Js.Thrown).
      (* the async handler rejects *)

(** [app.post('/messages')]; [sessionId] is [req.query.sessionId],
    [undefined] when the query has none. The registry is only read. *)
Definition post_messages (transports : JsObject.t SSEServerTransport)
    (sessionId : option string) : PostOutcome :=
  match JsObject.get transports (Js.to_string sessionId) with
  | Own transport => HandlePostMessage transport
  | Inherited _ =>
      (* truthy, but no [handlePostMessage] on it *)
      Throws (Js.TypeError "transport.handlePostMessage is not a function")
  | Undefined => Send 400 "No transport found for sessionId"
  end.

(** A client error is a status in the 4xx range. *)
Definition is_client_error (o : PostOutcome) : bool :=
  match o with
  | Send status _ => (400 <=? status) && (status <? 500)
  | _ => false
  end.

(** Registries that the two endpoints can produce from the empty one. *)
Inductive reachable : JsObject.t SSEServerTransport → Prop :=
  | reachable_init : reachable transports_init
  | reachable_open res uuid transports :
      reachable transports → reachable (get_sse res uuid transports).1
  | reachable_close transport transports :
      reachable transports → reachable (res_on_close transport transports).
End Server.

(** ** Process lifecycle *)
Module Lifecycle.

Inductive Action :=
  | ConsoleLog (line : string)
  | ConsoleErr (label : string)
  | TransportClose (transport : SSEServerTransport)
  | ProcessExit (code : Z).

Section shutdown.
(** Whether [transport.close()] throws synchronously inside the promise
    executor; the promise built around it is then rejected. *)
Variable close_throws : SSEServerTransport → bool.

(** [async function shutdown(exitCode = 0)]. [map] runs every executor,
    and with it every [close()], before [Promise.all] is awaited; the
    [finally] clause exits on both paths. *)
Definition shutdown (exitCode : option Z)
    (transports : JsObject.t SSEServerTransport) : list Action :=
  [ConsoleLog (Js.LF +:+ "Shutting down gracefully...")]
  ++ map TransportClose (JsObject.values transports)
  ++ [if existsb close_throws (JsObject.values transports)
      then ConsoleErr "Error during shutdown:"
      else ConsoleLog "All transports closed successfully"]
  ++ [ProcessExit (default 0 exitCode)].

Inductive ProcessEvent :=
  | SIGTERM
  | SIGINT
  | uncaughtException
  | unhandledRejection.

(** The four [process.on] listeners. *)
Definition process_on (event : ProcessEvent)
    (transports : JsObject.t SSEServerTransport) : list Action :=
  match event with
  | SIGTERM => ConsoleLog "Received SIGTERM signal" :: shutdown (Some 0) transports
  | SIGINT => ConsoleLog "Received SIGINT signal" :: shutdown (Some 0) transports
  | uncaughtException => ConsoleErr "Uncaught Exception:" :: shutdown (Some 1) transports
  | unhandledRejection =>
      ConsoleErr "Unhandled Rejection at:" :: shutdown (Some 1) transports
  end.
End shutdown.

(** The exit status a trace ends the process with: that of the first
    [process.exit] reached. *)
Fixpoint exit_status (tr : list Action) : option Z :=
  match tr with
  | [] => None
  | ProcessExit code :: _ => Some code
  | _ :: rest => exit_status rest
  end.

(** The transports closed before the process exits. *)
Fixpoint closed_before_exit (tr : list Action) : list SSEServerTransport :=
  match tr with
  | [] => []
  | ProcessExit _ :: _ => []
  | TransportClose t :: rest => t :: closed_before_exit rest
  | _ :: rest => closed_before_exit rest
  end.
End Lifecycle.

(** ** The shell's view of a command line

  [exec] hands the command string to [/bin/sh -c]. For a line without
  quoting or metacharacters the shell splits it into fields at blanks and
  passes the fields to the program as its arguments. *)
Definition argv (command : string) : list string := String.words command.

(** Characters that the shell passes through unchanged and never splits
  at: letters, digits, and the punctuation of ordinary paths. *)
Definition is_plain_char (c : ascii) : bool :=
  let n := nat_of_ascii c in
  ((48 <=? n) && (n <=? 57) || (65 <=? n) && (n <=? 90) || (97 <=? n) && (n <=? 122)
   || (n =? 45) || (n =? 46) || (n =? 47) || (n =? 95))%nat.

Fixpoint all_chars (p : ascii → bool) (s : string) : bool :=
  match s with
  | EmptyString => true
  | String c rest => p c && all_chars p rest
  end.

(** A non-empty file name made of such characters only. *)
Definition plain_word (s : string) : bool := Js.truthy s && all_chars is_plain_char s.

(** A text without any white space, such as a commit hash. *)
Definition no_whitespace (s : string) : bool :=
  all_chars (λ c, negb (Js.is_whitespace c)) s.

(** ** Scripted collaborators

  A shell that answers each command line from a fixed table and keeps the
  list of command lines it ran, and a remote that settles every call in a
  fixed way. *)
Module Scripted.

(** The [RequestError] with which Octokit rejects for an HTTP status. *)
Definition RequestError (status : Z) : Js.Thrown :=
  {| Js.instanceof_Error := true;
     Js.name := "HttpError";
     Js.message := "request failed";
     Js.status := Some status |}.

Section scripted.
Variable shell : string → Completion ExecOutput.
Variable commits : Completion (list Commit.t).
Variable pulls : Completion (list Pull.t).
Variable merged : Completion PullsMerge.data.
Variable created : Completion PullsCreate.data.

Definition collaborators : Collaborators :=
  {| World := list string;
     execAsync command cwd w := (shell command, w ++ [command]);
     octokit_repos_listCommits p w := (commits, w);
     octokit_pulls_list p w := (pulls, w);
     octokit_pulls_merge p w := (merged, w);
     octokit_pulls_create p w := (created, w) |}.
End scripted.

(** A remote that rejects every call with the given HTTP status, and a
    shell in which every command fails. *)
Definition failing_remote (status : Z) : Collaborators :=
  collaborators
    (λ _, Rejected (Js.Error "Command failed"))
    (Rejected (RequestError status)) (Rejected (RequestError status))
    (Rejected (RequestError status)) (Rejected (RequestError status)).

(** A working tree in which every git command succeeds; [git rev-parse
    HEAD] prints the hash followed by a newline. *)
Definition git_shell (command : string) : Completion ExecOutput :=
  if decide (command = "git rev-parse HEAD") then
    Resolved {| stdout := "3f2a9c1" +:+ Js.LF; stderr := EmptyString |}
  else if decide (command = "git status --porcelain") then
    Resolved {| stdout := " M a.txt" +:+ Js.LF; stderr := EmptyString |}
  else Resolved {| stdout := EmptyString; stderr := EmptyString |}.

Definition two_commits : list Commit.t :=
  [ {| Commit.sha := "3f2a9c1";
       Commit.commit :=
         {| Commit.author :=
              Some {| Commit.name := Some "Ada"; Commit.date := Some "2024-05-02" |};
            Commit.message := "Fix parser" |} |};
    {| Commit.sha := "77be210";
       Commit.commit :=
         {| Commit.author := None; Commit.message := "Initial commit" |} |} ].

Definition working : Collaborators :=
  collaborators git_shell (Resolved two_commits) (Resolved [])
    (Rejected (RequestError 405)) (Rejected (RequestError 422)).
End Scripted.

(** ** Startup: required environment and the listening port *)
Module Startup.
Import Js.

(** [process.env] once [dotenv.config()] has run: a variable is a string
    or [undefined]. *)
Definition Env : Type := string → option string.

Definition requiredEnvVars : list string := ["GITHUB_TOKEN"; "PORT"].

(** The validation loop over [requiredEnvVars]: at the first variable that
    is unset or empty it logs and calls [process.exit(1)], which ends the
    program there; an empty list of actions means the loop ran through. *)
Fixpoint check_required (vars : list string) (env : Env) : list Lifecycle.Action :=
  match vars with
  | [] => []
  | envVar :: rest =>
      if negb (truthy_opt (env envVar)) then
        [ Lifecycle.ConsoleErr
            ("Error: " +:+ envVar +:+ " environment variable is required");
          Lifecycle.ProcessExit 1 ]
      else check_required rest env
  end.

Definition digit_value (c : ascii) : option Z :=
  let n := Z.of_nat (nat_of_ascii c) in
  if (48 <=? n) && (n <=? 57) then Some (n - 48) else None.

(** The longest prefix of decimal digits, as a number; [None] when there
    is no digit to read. *)
Fixpoint parse_digits (acc : option Z) (s : string) : option Z :=
  match s with
  | EmptyString => acc
  | String c rest =>
      match digit_value c with
      | Some d => parse_digits (Some (10 * default 0 acc + d)) rest
      | None => acc
      end
  end.

(** [parseInt(s, 10)]: leading white space is skipped, one sign is read,
    then the digits up to the first other character; [None] is NaN. The
    value is the mathematical one, which a JavaScript number holds exactly
    below 2^53. *)
Definition parseInt (s : string) : option Z :=
  match trimStart s with
  | String "-" rest => Z.opp <$> parse_digits None rest
  | String "+" rest => parse_digits None rest
  | digits => parse_digits None digits
  end.

(** What the module-level code leaves behind when validation passes: the
    port for [app.listen] and the token handed to Octokit. *)
Record Config := {
  PORT : option Z;
  auth : option string
}.

(** The top of [src/index.ts] up to the Octokit client: the actions taken
    and, unless the process exited, the configuration. *)
Definition startup (env : Env) : list Lifecycle.Action * option Config :=
  match check_required requiredEnvVars env with
  | [] =>
      ([],
       Some {| PORT :=
                 parseInt (if truthy_opt (env "PORT") then to_string (env "PORT")
                           else "3000");
               auth := env "GITHUB_TOKEN" |})
  | actions => (actions, None)
  end.
End Startup.

(** ** Opening several streams in turn *)

(** [app.get('/sse')] run once per incoming stream, each given as the
    response handle and the id its transport drew. *)
Definition sse_open_all (streams : list (nat * string))
    (transports : JsObject.t SSEServerTransport) : JsObject.t SSEServerTransport :=
  foldl (λ registry stream, (Server.get_sse stream.1 stream.2 registry).1)
    transports streams.

(** The transport that [app.get('/sse')] builds for a stream. *)
Definition transport_of (stream : nat * string) : SSEServerTransport :=
  (Server.get_sse stream.1 stream.2 JsObject.empty).2.

(** ** The commits resource of the stdio revision

    It reads [owner] and [repo] unchecked, asks for one page of 10 commits
    of the default branch and rethrows whatever the remote rejected with. *)
Section stdio_handlers.
Context {collab : Collaborators}.
Import Js.

Definition stdio_github_commits (href : string) (owner repo : option string)
  : Async.t Resource.result :=
  Async.try_catch
    (commits ← repos_listCommits
       {| ListCommits.owner := owner; ListCommits.repo := repo;
          ListCommits.sha := None; ListCommits.per_page := 10 |};
     Async.ret
       {| Resource.contents :=
            map (λ commit,
                   {| Resource.uri := href;
                      Resource.text :=
                        "Commit: " +:+ Commit.sha commit +:+ LF
                        +:+ "Author: "
                        +:+ to_string (Commit.author (Commit.commit commit) ≫= Commit.name)
                        +:+ LF
                        +:+ "Message: " +:+ Commit.message (Commit.commit commit) +:+ LF
                        +:+ "Date: "
                        +:+ to_string (Commit.author (Commit.commit commit) ≫= Commit.date)
                   |})
                commits |})
    (λ error,
       Async.console_error "Error fetching commits:";;
       Async.throw error).
End stdio_handlers.

(** ** White space at the ends of a string *)
Definition starts_with_whitespace (s : string) : bool :=
  match s with
  | EmptyString => false
  | String c _ => Js.is_whitespace c
  end.

Fixpoint ends_with_whitespace (s : string) : bool :=
  match s with
  | EmptyString => false
  | String c EmptyString => Js.is_whitespace c
  | String _ rest => ends_with_whitespace rest
  end.

(** ** More scripted collaborators *)
Module Fixtures.

Definition one_pull : Pull.t :=
  {| Pull.number := 12;
     Pull.title := "Add parser";
     Pull.user := Some {| Pull.login := "ada" |};
     Pull.state := "open";
     Pull.created_at := "2024-05-01T10:00:00Z";
     Pull.updated_at := "2024-05-02T09:30:00Z" |}.

Definition merged : PullsMerge.data :=
  {| PullsMerge.sha := "77be210"; PullsMerge.message := "Pull Request successfully merged" |}.

Definition created : PullsCreate.data :=
  {| PullsCreate.number := 13;
     PullsCreate.html_url := "https://github.com/octo/demo/pull/13" |}.

(** A remote on which every call succeeds, next to the working shell. *)
Definition remote_ok : Collaborators :=
  Scripted.collaborators Scripted.git_shell
    (Resolved Scripted.two_commits) (Resolved [one_pull])
    (Resolved merged) (Resolved created).

(** A shell on which [git commit] fails while every other command works. *)
Definition commit_fails (command : string) : Completion ExecOutput :=
  if Js.startsWith command "git commit" then Rejected (Js.Error "nothing to commit")
  else Scripted.git_shell command.

Definition nothing_to_commit : Collaborators :=
  Scripted.collaborators commit_fails
    (Resolved []) (Resolved []) (Resolved merged) (Resolved created).

(** A shell that prints the branch name between blanks. *)
Definition branch_shell (command : string) : Completion ExecOutput :=
  Resolved {| stdout := "  main " +:+ Js.LF; stderr := EmptyString |}.

Definition on_main : Collaborators :=
  Scripted.collaborators branch_shell
    (Resolved []) (Resolved []) (Resolved merged) (Resolved created).
End Fixtures.

(** ** Session ids as property keys *)
Definition is_digit (c : ascii) : bool :=
  let n := nat_of_ascii c in ((48 <=? n) && (n <=? 57))%nat.

(** A key that assignment stores as an own property listed in insertion
    order: not [__proto__] and not a string of decimal digits only (which
    leaves out every array index). The ids that [randomUUID()] draws
    contain hyphens and are such keys. *)
Definition ordinary_key (k : string) : bool :=
  negb (bool_decide (k = "__proto__")) && negb (Js.truthy k && all_chars is_digit k).

(** ** A host that ignores the page size *)
Module Overfull.



End Overfull.

(** ** The error mapping of [github-commits], as a table

  The failure that the [catch] clause raises for a rejection [e] of the
  remote call. *)
Definition commits_failure (owner repo : option string) (e : Js.Thrown) : Js.Thrown :=
  if Js.instanceof_Error e && bool_decide (Js.status e = Some 404) then
    Js.Error ("Repository " +:+ Js.to_string owner +:+ "/" +:+ Js.to_string repo
              +:+ " not found")
  else if Js.instanceof_Error e && bool_decide (Js.status e = Some 403) then
    Js.Error "Access denied. Please check your GitHub token permissions"
  else Js.Error "Failed to fetch commits. Please try again later.".

(** * Properties *)

(** ** Own properties of a JavaScript object *)
Section object_facts.
Context {V : Type}.
Implicit Types (o : JsObject.t V) (k : string) (v : V).

Lemma own_set_eq o k v : JsObject.own (JsObject.set o k v) k = Some v.
Proof.
  induction o as [|[k' v'] o IH]; simpl.
  - by rewrite decide_True.
  - destruct (decide (k' = k)) as [->|Hne]; simpl.
    + by rewrite decide_True.
    + by rewrite decide_False.
Qed.

Lemma own_set_ne o k k' v :
  k ≠ k' → JsObject.own (JsObject.set o k v) k' = JsObject.own o k'.
Proof.
  intros Hne. induction o as [|[k0 v0] o IH]; simpl.
  - by rewrite decide_False.
  - destruct (decide (k0 = k)) as [->|Hk0]; simpl.
    + by rewrite !decide_False.
    + by rewrite IH.
Qed.

Lemma own_delete_eq o k : JsObject.own (JsObject.delete o k) k = None.
Proof.
  induction o as [|[k0 v0] o IH]; simpl; [done|].
  destruct (decide (k0 = k)); simpl; [done|]. by rewrite decide_False.
Qed.

Lemma own_delete_ne o k k' :
  k ≠ k' → JsObject.own (JsObject.delete o k) k' = JsObject.own o k'.
Proof.
  intros Hne. induction o as [|[k0 v0] o IH]; simpl; [done|].
  destruct (decide (k0 = k)) as [->|Hk0]; simpl.
  - by rewrite decide_False.
  - by rewrite IH.
Qed.



Lemma get_undefined_own o k :
  JsObject.get o k = JsObject.Undefined → JsObject.own o k = None.
Proof. unfold JsObject.get. destruct (JsObject.own o k); [done|]. by intros _. Qed.

Lemma own_None_keys o k : JsObject.own o k = None ↔ k ∉ JsObject.keys o.
Proof.
  unfold JsObject.keys.
  induction o as [|[k0 v0] o IH]; simpl.
  - split; [intros _; apply not_elem_of_nil | done].
  - rewrite not_elem_of_cons. destruct (decide (k0 = k)) as [->|Hne].
    + split; [done | by intros [? _]].
    + rewrite IH. intuition congruence.
Qed.

Lemma own_Some_values o k v : JsObject.own o k = Some v → v ∈ JsObject.values o.
Proof.
  unfold JsObject.values.
  induction o as [|[k0 v0] o IH]; simpl; [done|].
  destruct (decide (k0 = k)).
  - intros [= ->]. apply list_elem_of_here.
  - intros Hown. apply list_elem_of_further. by apply IH.
Qed.

Lemma set_fresh o k v :
  JsObject.own o k = None → JsObject.set o k v = o ++ [(k, v)].
Proof.
  induction o as [|[k0 v0] o IH]; simpl; [done|].
  destruct (decide (k0 = k)); [done|]. intros Hown. by rewrite IH.
Qed.

Lemma keys_set_subseteq o k v k' :
  k' ∈ JsObject.keys (JsObject.set o k v) → k' = k ∨ k' ∈ JsObject.keys o.
Proof.
  unfold JsObject.keys.
  induction o as [|[k0 v0] o IH]; simpl.
  - rewrite list_elem_of_singleton. by left.
  - destruct (decide (k0 = k)) as [->|Hne]; simpl; rewrite !elem_of_cons.
    + intuition congruence.
    + intuition congruence.
Qed.

Lemma keys_delete_subseteq o k k' :
  k' ∈ JsObject.keys (JsObject.delete o k) → k' ∈ JsObject.keys o.
Proof.
  unfold JsObject.keys.
  induction o as [|[k0 v0] o IH]; simpl; [done|].
  destruct (decide (k0 = k)); simpl; rewrite !elem_of_cons; intuition congruence.
Qed.

(** No key is stored twice: assignment and deletion keep it so. *)
Lemma NoDup_keys_set o k v :
  NoDup (JsObject.keys o) → NoDup (JsObject.keys (JsObject.set o k v)).
Proof.
  induction o as [|[k0 v0] o IH]; simpl.
  - intros _. apply NoDup_singleton.
  - intros [Hnotin Hnd]%NoDup_cons.
    destruct (decide (k0 = k)) as [->|Hne]; simpl.
    + by apply NoDup_cons.
    + apply NoDup_cons. split; [|by apply IH].
      intros [->|Hin]%keys_set_subseteq; done.
Qed.

Lemma NoDup_keys_delete o k :
  NoDup (JsObject.keys o) → NoDup (JsObject.keys (JsObject.delete o k)).
Proof.
  induction o as [|[k0 v0] o IH]; simpl; [done|].
  intros [Hnotin Hnd]%NoDup_cons.
  destruct (decide (k0 = k)); simpl; [by apply IH|].
  apply NoDup_cons. split; [|by apply IH].
  intros Hin%keys_delete_subseteq. done.
Qed.
End object_facts.

(** ** Session transport registry *)
Section registry.
Import Server.
Implicit Types (transports : JsObject.t SSEServerTransport) (k : string).

(** Every registry the endpoints can build holds each session id once. *)
Lemma reachable_NoDup transports :
  reachable transports → NoDup (JsObject.keys transports).
Proof.
  induction 1 as [|res uuid transports _ IH|transport transports _ IH].
  - apply NoDup_nil_2.
  - by apply NoDup_keys_set.
  - by apply NoDup_keys_delete.
Qed.

(** A message for a session whose transport is stored is handed to it. *)
Lemma post_messages_own transports k t :
  JsObject.own transports k = Some t →
  post_messages transports (Some k) = HandlePostMessage t.
Proof. intros Hown. unfold post_messages, JsObject.get; simpl. by rewrite Hown. Qed.


(** An id that is not stored but names a property of [Object.prototype]
    reads the inherited value: the handler rejects with a TypeError and
    sends nothing. *)
Lemma post_messages_inherited transports k :
  JsObject.own transports k = None →
  k ∈ JsObject.Object_prototype_keys →
  post_messages transports (Some k)
  = Throws (Js.TypeError "transport.handlePostMessage is not a function").
Proof.
  intros Hown Hk. unfold post_messages, JsObject.get; simpl.
  by rewrite Hown, bool_decide_true.
Qed.
End registry.

Example post_messages_unknown_uuid :
  Server.post_messages Server.transports_init (Some "5f0c7a2e-1b7d-4c55-9a53-0d6f2f0f8a11")
  = Server.Send 400 "No transport found for sessionId".
Proof. reflexivity. Qed.

Example post_messages_without_query :
  Server.post_messages Server.transports_init None
  = Server.Send 400 "No transport found for sessionId".
Proof. reflexivity. Qed.

Example post_messages_after_open :
  let opened := Server.get_sse 1 "5f0c7a2e" Server.transports_init in
  Server.post_messages opened.1 (Some "5f0c7a2e") = Server.HandlePostMessage opened.2
  ∧ Server.post_messages (Server.res_on_close opened.2 opened.1) (Some "5f0c7a2e")
    = Server.Send 400 "No transport found for sessionId".
Proof. split; reflexivity. Qed.

(** C1. A message whose session id has no entry in the registry is to be
  answered with a client error. For the id [constructor], which the empty
  registry does not hold, the lookup [transports[sessionId]] yields the
  inherited [Object] function: no response with a 4xx status is sent, the
  handler rejects with a TypeError instead. *)
Theorem post_messages_constructor_not_rejected :
  JsObject.own Server.transports_init "constructor" = None
  ∧ Server.post_messages Server.transports_init (Some "constructor")
    = Server.Throws (Js.TypeError "transport.handlePostMessage is not a function")
  ∧ Server.is_client_error
      (Server.post_messages Server.transports_init (Some "constructor")) = false.
Proof.
  assert (Hk : "constructor" ∈ JsObject.Object_prototype_keys) by apply list_elem_of_here.
  split; [done|].
  rewrite (post_messages_inherited Server.transports_init "constructor" eq_refl Hk).
  done.
Qed.



Lemma ordinary_keys_delete {V : Type} (o : JsObject.t V) (k : string) :
  Forall (λ key, ordinary_key key = true) (JsObject.keys o) →
  Forall (λ key, ordinary_key key = true) (JsObject.keys (JsObject.delete o k)).
Proof.
  rewrite !Forall_forall. intros Hall key Hin%keys_delete_subseteq. auto.
Qed.


Example sse_same_id_second_unrouted :
  let opened1 := Server.get_sse 1 "dup" JsObject.empty in
  let opened2 := Server.get_sse 2 "dup" opened1.1 in
  length opened2.1 = 1%nat
  ∧ Server.post_messages (Server.res_on_close opened1.2 opened2.1) (Some "dup")
    = Server.Send 400 "No transport found for sessionId".
Proof. split; reflexivity. Qed.



(** ** Shutdown *)
Section lifecycle.
Import Lifecycle.
Variable close_throws : SSEServerTransport → bool.
Implicit Types (transports : JsObject.t SSEServerTransport).

Lemma closed_before_exit_closes (l : list SSEServerTransport) (rest : list Action) :
  closed_before_exit (map TransportClose l ++ rest) = l ++ closed_before_exit rest.
Proof. induction l as [|t l IH]; simpl; [done|]. by rewrite IH. Qed.

Lemma exit_status_closes (l : list SSEServerTransport) (rest : list Action) :
  exit_status (map TransportClose l ++ rest) = exit_status rest.
Proof. induction l as [|t l IH]; simpl; done. Qed.

Lemma shutdown_closed exitCode transports :
  closed_before_exit (shutdown close_throws exitCode transports)
  = JsObject.values transports.
Proof.
  unfold shutdown. simpl. rewrite closed_before_exit_closes. simpl.
  destruct (existsb _ _); simpl; by rewrite app_nil_r.
Qed.

Lemma shutdown_exit_status exitCode transports :
  exit_status (shutdown close_throws exitCode transports) = Some (default 0 exitCode).
Proof.
  unfold shutdown. simpl. rewrite exit_status_closes. simpl.
  by destruct (existsb _ _).
Qed.

(** The shutdown sequence does not depend on the exit code, up to the
    final [process.exit]. *)
Lemma shutdown_same_sequence code1 code2 transports :
  ∃ steps,
    shutdown close_throws code1 transports = steps ++ [ProcessExit (default 0 code1)]
    ∧ shutdown close_throws code2 transports = steps ++ [ProcessExit (default 0 code2)]
    ∧ exit_status steps = None.
Proof.
  eexists ([_] ++ map TransportClose (JsObject.values transports) ++ [_]).
  unfold shutdown. rewrite <-!app_assoc. split_and!; [done..|].
  simpl. rewrite exit_status_closes. simpl. by destruct (existsb _ _).
Qed.
End lifecycle.

(** C3. A termination signal ([SIGTERM], [SIGINT]) closes the transport of
  every session stored in the registry and then exits with status 0; an
  uncaught exception or unhandled rejection runs the same sequence and
  exits with status 1. Nothing is closed after the exit, and the exit is
  reached whether or not a [close()] throws. *)
Theorem shutdown_closes_all_then_exits
    (close_throws : SSEServerTransport → bool)
    (event : Lifecycle.ProcessEvent)
    (transports : JsObject.t SSEServerTransport) :
  let tr := Lifecycle.process_on close_throws event transports in
  let code :=
    match event with
    | Lifecycle.SIGTERM | Lifecycle.SIGINT => 0
    | Lifecycle.uncaughtException | Lifecycle.unhandledRejection => 1
    end in
  Lifecycle.closed_before_exit tr = JsObject.values transports
  ∧ (∀ k t, JsObject.own transports k = Some t → t ∈ Lifecycle.closed_before_exit tr)
  ∧ Lifecycle.exit_status tr = Some code
  ∧ (∃ announce steps,
       tr = announce :: steps ++ [Lifecycle.ProcessExit code]
       ∧ Lifecycle.exit_status (announce :: steps) = None
       ∧ Lifecycle.shutdown close_throws (Some 0) transports
         = steps ++ [Lifecycle.ProcessExit 0]
       ∧ Lifecycle.shutdown close_throws (Some 1) transports
         = steps ++ [Lifecycle.ProcessExit 1]).
Proof.
  intros tr code.
  assert (Hclosed : Lifecycle.closed_before_exit tr = JsObject.values transports).
  { subst tr. destruct event; exact (shutdown_closed close_throws _ transports). }
  split_and!.
  - done.
  - intros k t Hown. rewrite Hclosed. by eapply own_Some_values.
  - subst tr code. destruct event; exact (shutdown_exit_status close_throws _ transports).
  - destruct (shutdown_same_sequence close_throws (Some 0) (Some 1) transports)
      as (steps & H0 & H1 & Hnone).
    subst tr code. unfold Lifecycle.process_on.
    destruct event; eexists _, steps;
      (split_and!; [by rewrite ?H0, ?H1 | done | done | done]).
Qed.

(** ** Running a handler *)

(** Unfolds the monad so that a handler applied to a world reduces. *)
Ltac run_async :=
  unfold exec, repos_listCommits, pulls_list, pulls_merge, pulls_create in *;
  unfold Async.outcome, Async.trace, Async.world,
    Async.try_catch, mbind, mret, async_bind, async_ret, Async.bind,
    Async.call, Async.console_error, Async.throw, Async.ret in *.

(** ** Remote failures *)
Section remote_errors.
Context {collab : Collaborators}.
Implicit Types (owner repo branch : option string) (w : World) (e : Js.Thrown).

Lemma github_commits_rejected href owner repo branch w e w' :
  Js.truthy_opt owner = true → Js.truthy_opt repo = true →
  octokit_repos_listCommits
    {| ListCommits.owner := owner; ListCommits.repo := repo;
       ListCommits.sha := branch; ListCommits.per_page := 10 |} w
  = (Rejected e, w') →
  Async.outcome (github_commits href owner repo branch w)
  = Rejected (commits_failure owner repo e).
Proof.
  intros Ho Hr Hcall. unfold github_commits, commits_failure.
  rewrite Ho, Hr. simpl. run_async. rewrite Hcall. simpl.
  destruct (Js.instanceof_Error e); simpl; [|done].
  destruct (decide (Js.status e = Some 404)) as [H404|H404]; simpl.
  { by rewrite bool_decide_true. }
  rewrite bool_decide_false by done.
  destruct (decide (Js.status e = Some 403)) as [H403|H403]; simpl.
  { by rewrite bool_decide_true. }
  by rewrite bool_decide_false.
Qed.

(** The other three operations raise one fixed failure whatever the
    remote rejected with. *)
Lemma github_pulls_rejected href owner repo w e w' :
  Js.truthy_opt owner = true → Js.truthy_opt repo = true →
  octokit_pulls_list
    {| PullsList.owner := owner; PullsList.repo := repo;
       PullsList.state := "open"; PullsList.sort := "updated";
       PullsList.direction := "desc" |} w
  = (Rejected e, w') →
  Async.outcome (github_pulls href owner repo w)
  = Rejected (Js.Error "Failed to fetch pull requests").
Proof.
  intros Ho Hr Hcall. unfold github_pulls. rewrite Ho, Hr. simpl.
  run_async. by rewrite Hcall.
Qed.

Lemma merge_pull_request_rejected (params : MergePullRequest.params) w :
  (∀ p, ∃ e w', octokit_pulls_merge p w = (Rejected e, w')) →
  Async.outcome (merge_pull_request params w)
  = Rejected (Js.Error "Failed to merge pull request").
Proof.
  intros Hcall. unfold merge_pull_request. run_async.
  destruct (_ || _); simpl; [done|].
  match goal with |- context [octokit_pulls_merge ?p w] =>
    destruct (Hcall p) as (e & w' & ->) end.
  done.
Qed.

Lemma create_pull_request_rejected (params : CreatePullRequest.params) w :
  (∀ p, ∃ e w', octokit_pulls_create p w = (Rejected e, w')) →
  Async.outcome (create_pull_request params w)
  = Rejected (Js.Error "Failed to create pull request").
Proof.
  intros Hcall. unfold create_pull_request. run_async.
  destruct (_ || _); simpl; [done|].
  match goal with |- context [octokit_pulls_create ?p w] =>
    destruct (Hcall p) as (e & w' & ->) end.
  done.
Qed.
End remote_errors.

(** C4. A remote 404 is to surface as a not-found failure naming
  [owner/repo] from every operation of the adapter. Against a remote that
  answers 404, listing commits does so; listing pull requests, merging
  and creating a pull request each surface their fixed generic failure. *)
Theorem remote_404_generic_outside_commits :
  let remote := Scripted.failing_remote 404 in
  let owner := Some "octo" in
  let repo := Some "missing" in
  Async.outcome
    (github_commits (collab := remote) "github://octo/missing/commits" owner repo None [])
  = Rejected (Js.Error "Repository octo/missing not found")
  ∧ Async.outcome
      (github_pulls (collab := remote) "github://octo/missing/pulls" owner repo [])
    = Rejected (Js.Error "Failed to fetch pull requests")
  ∧ Async.outcome
      (merge_pull_request (collab := remote)
         {| MergePullRequest.owner := owner; MergePullRequest.repo := repo;
            MergePullRequest.pullNumber := Some 7;
            MergePullRequest.mergeMethod := None;
            MergePullRequest.commitMessage := None |} [])
    = Rejected (Js.Error "Failed to merge pull request")
  ∧ Async.outcome
      (create_pull_request (collab := remote)
         {| CreatePullRequest.owner := owner; CreatePullRequest.repo := repo;
            CreatePullRequest.title := Some "Add parser";
            CreatePullRequest.body := None;
            CreatePullRequest.head := Some "feature";
            CreatePullRequest.base := Some "main" |} [])
    = Rejected (Js.Error "Failed to create pull request").
Proof.
  intros remote owner repo. split_and!.
  - by rewrite (github_commits_rejected (collab := remote) _ owner repo None []
                  (Scripted.RequestError 404) [] eq_refl eq_refl eq_refl).
  - by rewrite (github_pulls_rejected (collab := remote) _ owner repo []
                  (Scripted.RequestError 404) [] eq_refl eq_refl eq_refl).
  - apply (merge_pull_request_rejected (collab := remote)). intros p. by eexists _, _.
  - apply (create_pull_request_rejected (collab := remote)). intros p. by eexists _, _.
Qed.

(** ** The commit-message capabilities *)
Section generate.
Context {collab : Collaborators}.
Implicit Types (changes context repoPath : option string) (w : World).

(** With usable [changes] the tool returns the template, calls nothing
    and leaves the world alone, whatever [repoPath] is. *)
Lemma generate_commit_message_given changes context repoPath w :
  Js.truthy_opt changes = true →
  generate_commit_message
    {| GenerateCommitMessage.changes := changes;
       GenerateCommitMessage.context := context;
       GenerateCommitMessage.repoPath := repoPath |} w
  = (Resolved
       {| Tool.content :=
            [ {| Tool.type := "text";
                 Tool.text :=
                   "Please generate a clear and descriptive commit message for the following changes:"
                   +:+ Js.LF +:+ Js.LF +:+ Js.to_string changes +:+ Js.LF +:+ Js.LF
                   +:+ (if Js.truthy_opt context
                        then "Additional context:" +:+ Js.LF +:+ Js.to_string context
                        else EmptyString) |} ] |},
     w, []).
Proof.
  intros Hc. unfold generate_commit_message. simpl. rewrite Hc. simpl.
  run_async. simpl. by rewrite Hc.
Qed.

(** Without usable [changes] and without a usable [repoPath] the tool
    rejects, after logging, without any call. *)
Lemma generate_commit_message_nothing changes context repoPath w :
  Js.truthy_opt changes = false →
  Js.truthy_opt repoPath = false →
  generate_commit_message
    {| GenerateCommitMessage.changes := changes;
       GenerateCommitMessage.context := context;
       GenerateCommitMessage.repoPath := repoPath |} w
  = (Rejected (Js.Error "Failed to generate commit message. Please try again."),
     w, [ConsoleError "Error generating commit message:"]).
Proof.
  intros Hc Hr. unfold generate_commit_message. simpl. rewrite Hc, Hr. simpl.
  run_async. simpl. by rewrite Hc.
Qed.

(** Without usable [changes] but with a [repoPath], a failing first shell
    command surfaces as the very same rejection. *)
Lemma generate_commit_message_shell_failure changes context repoPath w e w' :
  Js.truthy_opt changes = false →
  Js.truthy_opt repoPath = true →
  execAsync "git status --porcelain" repoPath w = (Rejected e, w') →
  Async.outcome
    (generate_commit_message
       {| GenerateCommitMessage.changes := changes;
          GenerateCommitMessage.context := context;
          GenerateCommitMessage.repoPath := repoPath |} w)
  = Rejected (Js.Error "Failed to generate commit message. Please try again.").
Proof.
  intros Hc Hr Hexec. unfold generate_commit_message, getGitStatus. simpl.
  rewrite Hc, Hr. simpl. run_async. by rewrite Hexec.
Qed.

(** Without usable [changes] but with a [repoPath], the changes text is
    built from the output of [git status --porcelain] and [git diff]. *)
Lemma generate_commit_message_derived changes context repoPath w status w1 diff w2 :
  Js.truthy_opt changes = false →
  Js.truthy_opt repoPath = true →
  execAsync "git status --porcelain" repoPath w = (Resolved status, w1) →
  execAsync "git diff" repoPath w1 = (Resolved diff, w2) →
  generate_commit_message
    {| GenerateCommitMessage.changes := changes;
       GenerateCommitMessage.context := context;
       GenerateCommitMessage.repoPath := repoPath |} w
  = (Resolved
       {| Tool.content :=
            [ {| Tool.type := "text";
                 Tool.text :=
                   "Please generate a clear and descriptive commit message for the following changes:"
                   +:+ Js.LF +:+ Js.LF
                   +:+ ("Git Status:" +:+ Js.LF +:+ stdout status +:+ Js.LF +:+ Js.LF
                        +:+ "Diff:" +:+ Js.LF +:+ stdout diff)
                   +:+ Js.LF +:+ Js.LF
                   +:+ (if Js.truthy_opt context
                        then "Additional context:" +:+ Js.LF +:+ Js.to_string context
                        else EmptyString) |} ] |},
     w2,
     [Exec "git status --porcelain" repoPath; Exec "git diff" repoPath]).
Proof.
  intros Hc Hr Hstatus Hdiff. unfold generate_commit_message, getGitStatus. simpl.
  rewrite Hc, Hr. simpl. run_async. by rewrite Hstatus, Hdiff.
Qed.

(** The tool's outcome depends on [changes] only through its usable
    value: two falsy values are interchangeable. *)
Lemma generate_commit_message_falsy changes changes' context repoPath w :
  Js.truthy_opt changes = false →
  Js.truthy_opt changes' = false →
  generate_commit_message
    {| GenerateCommitMessage.changes := changes;
       GenerateCommitMessage.context := context;
       GenerateCommitMessage.repoPath := repoPath |} w
  = generate_commit_message
      {| GenerateCommitMessage.changes := changes';
         GenerateCommitMessage.context := context;
         GenerateCommitMessage.repoPath := repoPath |} w.
Proof.
  intros Hc Hc'. destruct (Js.truthy_opt repoPath) eqn:Hr.
  - unfold generate_commit_message. simpl. by rewrite Hc, Hc', Hr.
  - by rewrite !generate_commit_message_nothing.
Qed.
End generate.

(** C5. Called with neither [changes] nor [repoPath], the tool fails before
  any shell command or remote call. The failure that reaches the caller
  is not the validation message raised inside the handler: the handler's
  own [catch] clause replaces it by the fixed failure, the same one that
  a failed shell command surfaces as. *)
Theorem generate_commit_message_missing_arguments
    {collab : Collaborators} (context : option string) (w : World) :
  let r :=
    generate_commit_message
      {| GenerateCommitMessage.changes := None;
         GenerateCommitMessage.context := context;
         GenerateCommitMessage.repoPath := None |} w in
  r = (Rejected (Js.Error "Failed to generate commit message. Please try again."),
       w, [ConsoleError "Error generating commit message:"])
  ∧ filter is_external_call (Async.trace r) = []
  ∧ Async.outcome r
    ≠ Rejected (Js.Error "Changes parameter is required or repo path must be provided")
  ∧ Async.outcome r
    = Async.outcome
        (generate_commit_message (collab := Scripted.failing_remote 500)
           {| GenerateCommitMessage.changes := None;
              GenerateCommitMessage.context := context;
              GenerateCommitMessage.repoPath := Some "/repo" |} []).
Proof.
  intros r. subst r. rewrite generate_commit_message_nothing by done.
  split_and!; [done..|].
  by rewrite (generate_commit_message_shell_failure
                (collab := Scripted.failing_remote 500) None context (Some "/repo") []
                (Js.Error "Command failed") ["git status --porcelain"]).
Qed.

(** C8. With [changes] = foo and no context the tool returns the template
  around foo, which contains foo and has no Additional context section;
  with [context] = bar the returned text contains foo and bar, bar being
  the content of the closing Additional context section. The schema-checked
  tool of the stdio revision returns the same two results. *)
Theorem generate_commit_message_foo_bar {collab : Collaborators} (w : World) :
  let plain :=
    "Please generate a clear and descriptive commit message for the following changes:"
    +:+ Js.LF +:+ Js.LF +:+ "foo" +:+ Js.LF +:+ Js.LF in
  let with_context := plain +:+ "Additional context:" +:+ Js.LF +:+ "bar" in
  let result text := {| Tool.content := [ {| Tool.type := "text"; Tool.text := text |} ] |} in
  generate_commit_message
    {| GenerateCommitMessage.changes := Some "foo";
       GenerateCommitMessage.context := None;
       GenerateCommitMessage.repoPath := None |} w
  = (Resolved (result plain), w, [])
  ∧ Js.includes plain "foo" = true
  ∧ Js.includes plain "Additional context" = false
  ∧ generate_commit_message
      {| GenerateCommitMessage.changes := Some "foo";
         GenerateCommitMessage.context := Some "bar";
         GenerateCommitMessage.repoPath := None |} w
    = (Resolved (result with_context), w, [])
  ∧ Js.includes with_context "foo" = true
  ∧ Js.includes with_context "bar" = true
  ∧ Js.endsWith with_context ("Additional context:" +:+ Js.LF +:+ "bar") = true
  ∧ Stdio.generate_commit_message "foo" None = result plain
  ∧ Stdio.generate_commit_message "foo" (Some "bar") = result with_context.
Proof.
  intros plain with_context result.
  split_and!.
  - by rewrite generate_commit_message_given.
  - by vm_compute.
  - by vm_compute.
  - by rewrite generate_commit_message_given.
  - by vm_compute.
  - by vm_compute.
  - by vm_compute.
  - done.
  - done.
Qed.

(** ** Strings *)
Lemma string_length_app (s1 s2 : string) :
  String.length (s1 +:+ s2) = (String.length s1 + String.length s2)%nat.
Proof. induction s1 as [|c s1 IH]; simpl; [done|]. by rewrite IH. Qed.

(** A text with something non-empty embedded differs from the same text
  with nothing embedded. *)
Lemma embedded_not_empty (embedded after : string) :
  embedded ≠ EmptyString →
  embedded +:+ after ≠ EmptyString +:+ after.
Proof.
  intros Hne Heq.
  apply (f_equal String.length) in Heq. rewrite !string_length_app in Heq.
  destruct embedded; [done|]. simpl in Heq. lia.
Qed.

(** C9. A [changes] argument supplied as the empty string is treated as an
  absent one: the outcome, the final world and the trace are those of the
  call without [changes]. Without a usable [repoPath] the call fails; with
  one, and a shell that answers, the returned prompt embeds the text built
  from the status and diff output; no returned prompt embeds the empty
  string. *)
Theorem generate_commit_message_empty_changes
    {collab : Collaborators} (context repoPath : option string) (w : World) :
  let supplied :=
    generate_commit_message
      {| GenerateCommitMessage.changes := Some EmptyString;
         GenerateCommitMessage.context := context;
         GenerateCommitMessage.repoPath := repoPath |} w in
  let absent :=
    generate_commit_message
      {| GenerateCommitMessage.changes := None;
         GenerateCommitMessage.context := context;
         GenerateCommitMessage.repoPath := repoPath |} w in
  let derived (status diff : ExecOutput) :=
    "Git Status:" +:+ Js.LF +:+ stdout status +:+ Js.LF +:+ Js.LF
    +:+ "Diff:" +:+ Js.LF +:+ stdout diff in
  supplied = absent
  ∧ (Js.truthy_opt repoPath = false →
     supplied
     = (Rejected (Js.Error "Failed to generate commit message. Please try again."),
        w, [ConsoleError "Error generating commit message:"]))
  ∧ (∀ status w1 diff w2,
       Js.truthy_opt repoPath = true →
       execAsync "git status --porcelain" repoPath w = (Resolved status, w1) →
       execAsync "git diff" repoPath w1 = (Resolved diff, w2) →
       supplied
       = (Resolved (Stdio.generate_commit_message (derived status diff) context), w2,
          [Exec "git status --porcelain" repoPath; Exec "git diff" repoPath]))
  ∧ (∀ r, Async.outcome supplied = Resolved r →
          (∃ status diff, r = Stdio.generate_commit_message (derived status diff) context)
          ∧ r ≠ Stdio.generate_commit_message EmptyString context).
Proof.
  intros supplied absent derived.
  assert (Hderived : ∀ status w1 diff w2,
             Js.truthy_opt repoPath = true →
             execAsync "git status --porcelain" repoPath w = (Resolved status, w1) →
             execAsync "git diff" repoPath w1 = (Resolved diff, w2) →
             supplied
             = (Resolved (Stdio.generate_commit_message (derived status diff) context), w2,
                [Exec "git status --porcelain" repoPath; Exec "git diff" repoPath])).
  { intros status w1 diff w2 Hr Hs Hd. subst supplied.
    by rewrite (generate_commit_message_derived _ _ _ _ status w1 diff w2). }
  split_and!.
  - by apply generate_commit_message_falsy.
  - intros Hr. by apply generate_commit_message_nothing.
  - exact Hderived.
  - intros r Hres.
    destruct (Js.truthy_opt repoPath) eqn:Hr; last first.
    { subst supplied. by rewrite generate_commit_message_nothing in Hres. }
    destruct (execAsync "git status --porcelain" repoPath w) as [[status|e] w1] eqn:Hs;
      last first.
    { subst supplied.
      by rewrite (generate_commit_message_shell_failure _ _ _ _ e w1) in Hres. }
    destruct (execAsync "git diff" repoPath w1) as [[diff|e] w2] eqn:Hd; last first.
    { subst supplied. revert Hres.
      unfold generate_commit_message, getGitStatus. simpl. rewrite Hr. simpl.
      run_async. by rewrite Hs, Hd. }
    subst supplied.
    rewrite (generate_commit_message_derived _ _ _ _ status w1 diff w2) in Hres by done.
    injection Hres as <-. split; [by exists status, diff|].
    unfold Stdio.generate_commit_message. intros Heq.
    apply (f_equal (λ r, default EmptyString (Tool.text <$> head (Tool.content r)))) in Heq.
    simpl in Heq.
    do 3 apply (inj (String.app _)) in Heq.
    by apply embedded_not_empty in Heq.
Qed.

(** ** Tool and prompt *)

(** The schema-checked tool of the stdio revision and the prompt expand the
  same template for every input. *)
Lemma stdio_tool_matches_prompt (changes : string) (context : option string) :
  Tool.content (Stdio.generate_commit_message changes context)
  = Prompt.content <$> Prompt.messages (Stdio.commit_message changes context).
Proof. done. Qed.

(** The tool of [src/index.ts] and the prompt do not agree on every pair:
  for the empty [changes] string the prompt expands its template while
  the tool returns no text at all. *)
Lemma tool_and_prompt_differ_on_empty_changes :
  ¬ ∀ (C : Collaborators) (changes : string) (context : option string) (w : World),
      Async.outcome
        (generate_commit_message
           {| GenerateCommitMessage.changes := Some changes;
              GenerateCommitMessage.context := context;
              GenerateCommitMessage.repoPath := None |} w)
      = Resolved
          {| Tool.content :=
               Prompt.content <$> Prompt.messages (Stdio.commit_message changes context) |}.
Proof.
  intros Hall.
  specialize (Hall Scripted.working EmptyString None []).
  by rewrite (generate_commit_message_nothing (collab := Scripted.working)) in Hall.
Qed.

(** C10, amended. For every non-empty [changes] string and every optional
  [context], the tool returns as its only content item exactly the
  content of the single user message of the prompt, whatever [repoPath]
  is, without calling the shell. *)
Theorem tool_matches_prompt
    {collab : Collaborators} (changes : string) (context repoPath : option string) (w : World) :
  changes ≠ EmptyString →
  generate_commit_message
    {| GenerateCommitMessage.changes := Some changes;
       GenerateCommitMessage.context := context;
       GenerateCommitMessage.repoPath := repoPath |} w
  = (Resolved
       {| Tool.content :=
            Prompt.content <$> Prompt.messages (Stdio.commit_message changes context) |},
     w, [])
  ∧ (∃ text,
       Prompt.messages (Stdio.commit_message changes context)
       = [ {| Prompt.role := "user";
              Prompt.content := {| Tool.type := "text"; Tool.text := text |} |} ]).
Proof.
  intros Hne. split; [|by eexists].
  rewrite generate_commit_message_given; [done|].
  by destruct changes.
Qed.

Lemma tool_matches_prompt_witness :
  "foo" ≠ EmptyString
  ∧ Async.outcome
      (generate_commit_message (collab := Scripted.working)
         {| GenerateCommitMessage.changes := Some "foo";
            GenerateCommitMessage.context := Some "bar";
            GenerateCommitMessage.repoPath := None |} [])
    = Resolved
        {| Tool.content :=
             Prompt.content <$> Prompt.messages (Stdio.commit_message "foo" (Some "bar")) |}.
Proof.
  assert (Hne : "foo" ≠ EmptyString) by done.
  split; [exact Hne|].
  by rewrite (proj1 (tool_matches_prompt (collab := Scripted.working)
                       "foo" (Some "bar") None [] Hne)).
Defined.

(** ** Substrings *)
Lemma app_cons (c : ascii) (s t : string) : String c s +:+ t = String c (s +:+ t).
Proof. done. Qed.

Lemma app_empty (s : string) : EmptyString +:+ s = s.
Proof. done. Qed.

Lemma startsWith_app (x rest : string) : Js.startsWith (x +:+ rest) x = true.
Proof.
  induction x as [|c x IH]; [by destruct rest|].
  rewrite app_cons. simpl. by rewrite decide_True.
Qed.

Lemma includes_unfold (s x : string) :
  Js.includes s x
  = Js.startsWith s x
    || match s with
       | EmptyString => false
       | String _ s' => Js.includes s' x
       end.
Proof. by destruct s. Qed.

Lemma includes_startsWith (s x : string) :
  Js.startsWith s x = true → Js.includes s x = true.
Proof. intros Hs. by rewrite includes_unfold, Hs. Qed.

(** A text includes each of the pieces it is concatenated from. *)
Lemma includes_app (before x after : string) :
  Js.includes (before +:+ x +:+ after) x = true.
Proof.
  induction before as [|c before IH].
  - rewrite app_empty. apply includes_startsWith, startsWith_app.
  - rewrite app_cons, includes_unfold, IH. apply orb_true_r.
Qed.

Lemma includes_app_end (before x : string) : Js.includes (before +:+ x) x = true.
Proof.
  induction before as [|c before IH].
  - rewrite app_empty. apply includes_startsWith. induction x as [|c x IH]; [done|].
    simpl. by rewrite decide_True.
  - rewrite app_cons, includes_unfold, IH. apply orb_true_r.
Qed.

Lemma includes_app_r (before s x : string) :
  Js.includes s x = true → Js.includes (before +:+ s) x = true.
Proof.
  intros Hs. induction before as [|c before IH]; [by rewrite app_empty|].
  rewrite app_cons, includes_unfold, IH. apply orb_true_r.
Qed.

(** ** Listing commits *)




(** ** Trimming and splitting *)
Lemma trimEnd_newline (h : string) :
  no_whitespace h = true → Js.trimEnd (h +:+ Js.LF) = h.
Proof.
  induction h as [|c h IH]; [done|].
  intros [Hc Hh]%andb_prop. rewrite app_cons. simpl. rewrite (IH Hh).
  destruct h; [|done]. by apply negb_true_iff in Hc as ->.
Qed.

(** [trim] strips the newline that ends the output of a git command. *)
Lemma trim_newline (h : string) :
  no_whitespace h = true → Js.trim (h +:+ Js.LF) = h.
Proof.
  intros Hh. unfold Js.trim. destruct h as [|c h]; [done|].
  rewrite app_cons. pose proof Hh as [Hc _]%andb_prop.
  apply negb_true_iff in Hc. simpl. rewrite Hc.
  rewrite <-app_cons. by apply trimEnd_newline.
Qed.

Lemma string_app_empty_r (s : string) : s +:+ EmptyString = s.
Proof. induction s as [|c s IH]; [done|]. by rewrite app_cons, IH. Qed.

Lemma rev_app_rev_app (s acc acc' : string) :
  String.rev_app (String.rev_app s acc) acc' = String.rev_app acc (s +:+ acc').
Proof.
  revert acc acc'. induction s as [|c s IH]; intros acc acc'; [done|].
  simpl. by rewrite IH.
Qed.

Lemma rev_rev_app (s : string) : String.rev (String.rev_app s EmptyString) = s.
Proof. unfold String.rev. rewrite rev_app_rev_app. simpl. apply string_app_empty_r. Qed.

Lemma is_plain_char_not_space (c : ascii) :
  is_plain_char c = true → Ascii.is_space c = false.
Proof. destruct c as [[] [] [] [] [] [] [] []]; by vm_compute. Qed.

Lemma all_chars_cons (p : ascii → bool) (c : ascii) (s : string) :
  all_chars p (String c s) = true ↔ p c = true ∧ all_chars p s = true.
Proof. simpl. apply andb_true_iff. Qed.

Lemma words_go_cons (cur : option string) (a : ascii) (s : string) :
  String.words_go cur (String a s)
  = if Ascii.is_space a
    then option_list (String.rev <$> cur) ++ String.words_go None s
    else String.words_go (Some (String a (default EmptyString cur))) s.
Proof. simpl. by destruct cur. Qed.

(** Reading a word up to the blank or the end that follows it. *)
Lemma words_go_word (cur : option string) (c : ascii) (word rest : string) :
  is_plain_char c = true →
  all_chars is_plain_char word = true →
  String.words_go cur (String c word +:+ rest)
  = String.words_go (Some (String.rev_app (String c word) (default EmptyString cur))) rest.
Proof.
  revert cur c. induction word as [|d word IH]; intros cur c Hc Hword.
  - by rewrite app_cons, app_empty, words_go_cons, (is_plain_char_not_space c Hc).
  - apply all_chars_cons in Hword as [Hd Hword].
    rewrite app_cons, words_go_cons, (is_plain_char_not_space c Hc).
    by rewrite (IH _ d Hd Hword).
Qed.

Lemma words_go_join (files : list string) :
  files ≠ [] →
  forallb plain_word files = true →
  String.words_go None (Js.join " " files) = files.
Proof.
  induction files as [|f files IH]; [done|]. intros _ Hplain.
  apply andb_true_iff in Hplain as [Hf Hfiles].
  apply andb_true_iff in Hf as [Hne Hf]. destruct f as [|c f]; [done|].
  apply all_chars_cons in Hf as [Hc Hf].
  destruct files as [|g files].
  - change (Js.join " " [String c f]) with (String c f).
    rewrite <-(string_app_empty_r (String c f)) at 1.
    rewrite words_go_word by done.
    change (String.words_go (Some ?acc) EmptyString) with [String.rev acc].
    by rewrite rev_rev_app.
  - change (Js.join " " (String c f :: g :: files))
      with (String c f +:+ String " " (Js.join " " (g :: files))).
    rewrite words_go_word by done.
    rewrite words_go_cons.
    change (Ascii.is_space " ") with true. cbn [option_list fmap option_fmap option_map app].
    rewrite rev_rev_app. f_equal. by apply IH.
Qed.

(** For file names made of plain characters, git receives exactly the
  named files as its path arguments. *)
Lemma argv_stage_command_plain (files : list string) :
  files ≠ [] →
  forallb plain_word files = true →
  argv (stage_command (Some files)) = "git" :: "add" :: files.
Proof.
  intros Hne Hplain. destruct files as [|f files]; [done|].
  assert (Hargv : ∀ line,
             argv ("git add " +:+ line) = "git" :: "add" :: String.words_go None line)
    by done.
  unfold stage_command. by rewrite Hargv, words_go_join.
Qed.

(** ** Committing changes *)
Example stage_command_two_files :
  stage_command (Some ["a.txt"; "src/b.txt"]) = "git add a.txt src/b.txt".
Proof. reflexivity. Qed.

Example stage_command_no_files :
  stage_command None = "git add ." ∧ stage_command (Some []) = "git add .".
Proof. split; reflexivity. Qed.

Example trim_rev_parse_output : Js.trim ("  3f2a9c1" +:+ Js.LF) = "3f2a9c1".
Proof. reflexivity. Qed.

Example number_to_string_pull : Js.number_to_string 42 = "42".
Proof. reflexivity. Qed.

Section commit.
Context {collab : Collaborators}.
Implicit Types (repoPath message : option string) (files : option (list string)).
Implicit Types (w : World).

Lemma commit_changes_invalid repoPath message files w :
  Js.truthy_opt repoPath && Js.truthy_opt message = false →
  commit_changes
    {| CommitChanges.repoPath := repoPath; CommitChanges.message := message;
       CommitChanges.files := files |} w
  = (Rejected (Js.Error "Failed to commit changes"), w,
     [ConsoleError "Error committing changes:"]).
Proof.
  unfold commit_changes. intros Hv. run_async. simpl.
  by destruct (Js.truthy_opt repoPath), (Js.truthy_opt message).
Qed.

Lemma commit_changes_stage_fails repoPath message files w e w1 :
  Js.truthy_opt repoPath = true → Js.truthy_opt message = true →
  execAsync (stage_command files) repoPath w = (Rejected e, w1) →
  commit_changes
    {| CommitChanges.repoPath := repoPath; CommitChanges.message := message;
       CommitChanges.files := files |} w
  = (Rejected (Js.Error "Failed to commit changes"), w1,
     [Exec (stage_command files) repoPath; ConsoleError "Error committing changes:"]).
Proof.
  unfold commit_changes. intros Hr Hm Hstage.
  cbn [CommitChanges.repoPath CommitChanges.message CommitChanges.files].
  rewrite Hr, Hm. cbn [negb orb]. run_async. by rewrite Hstage.
Qed.

Lemma commit_changes_commit_fails repoPath message files w o1 w1 e w2 :
  Js.truthy_opt repoPath = true → Js.truthy_opt message = true →
  execAsync (stage_command files) repoPath w = (Resolved o1, w1) →
  execAsync (commit_command message) repoPath w1 = (Rejected e, w2) →
  commit_changes
    {| CommitChanges.repoPath := repoPath; CommitChanges.message := message;
       CommitChanges.files := files |} w
  = (Rejected (Js.Error "Failed to commit changes"), w2,
     [Exec (stage_command files) repoPath; Exec (commit_command message) repoPath;
      ConsoleError "Error committing changes:"]).
Proof.
  unfold commit_changes. intros Hr Hm Hstage Hcommit.
  cbn [CommitChanges.repoPath CommitChanges.message CommitChanges.files].
  rewrite Hr, Hm. cbn [negb orb]. run_async. by rewrite Hstage, Hcommit.
Qed.

Lemma commit_changes_rev_parse_fails repoPath message files w o1 w1 o2 w2 e w3 :
  Js.truthy_opt repoPath = true → Js.truthy_opt message = true →
  execAsync (stage_command files) repoPath w = (Resolved o1, w1) →
  execAsync (commit_command message) repoPath w1 = (Resolved o2, w2) →
  execAsync "git rev-parse HEAD" repoPath w2 = (Rejected e, w3) →
  commit_changes
    {| CommitChanges.repoPath := repoPath; CommitChanges.message := message;
       CommitChanges.files := files |} w
  = (Rejected (Js.Error "Failed to commit changes"), w3,
     [Exec (stage_command files) repoPath; Exec (commit_command message) repoPath;
      Exec "git rev-parse HEAD" repoPath; ConsoleError "Error committing changes:"]).
Proof.
  unfold commit_changes. intros Hr Hm Hstage Hcommit Hrev.
  cbn [CommitChanges.repoPath CommitChanges.message CommitChanges.files].
  rewrite Hr, Hm. cbn [negb orb]. run_async. by rewrite Hstage, Hcommit, Hrev.
Qed.

(** When all three commands succeed they ran in the order stage, commit,
  hash resolution, and the text carries the trimmed output of the last
  one. *)
Lemma commit_changes_succeeds repoPath message files w o1 w1 o2 w2 o3 w3 :
  Js.truthy_opt repoPath = true → Js.truthy_opt message = true →
  execAsync (stage_command files) repoPath w = (Resolved o1, w1) →
  execAsync (commit_command message) repoPath w1 = (Resolved o2, w2) →
  execAsync "git rev-parse HEAD" repoPath w2 = (Resolved o3, w3) →
  commit_changes
    {| CommitChanges.repoPath := repoPath; CommitChanges.message := message;
       CommitChanges.files := files |} w
  = (Resolved
       {| Tool.content :=
            [ {| Tool.type := "text";
                 Tool.text :=
                   "Changes committed successfully." +:+ Js.LF
                   +:+ "Commit Hash: " +:+ Js.trim (stdout o3) |} ] |},
     w3,
     [Exec (stage_command files) repoPath; Exec (commit_command message) repoPath;
      Exec "git rev-parse HEAD" repoPath]).
Proof.
  unfold commit_changes. intros Hr Hm Hstage Hcommit Hrev.
  cbn [CommitChanges.repoPath CommitChanges.message CommitChanges.files].
  rewrite Hr, Hm. cbn [negb orb]. run_async. by rewrite Hstage, Hcommit, Hrev.
Qed.

(** The hash in the returned text is the one git printed for HEAD. *)
Lemma commit_changes_returns_head repoPath message files w o1 w1 o2 w2 o3 w3 head :
  Js.truthy_opt repoPath = true → Js.truthy_opt message = true →
  execAsync (stage_command files) repoPath w = (Resolved o1, w1) →
  execAsync (commit_command message) repoPath w1 = (Resolved o2, w2) →
  execAsync "git rev-parse HEAD" repoPath w2 = (Resolved o3, w3) →
  stdout o3 = head +:+ Js.LF →
  no_whitespace head = true →
  Async.outcome
    (commit_changes
       {| CommitChanges.repoPath := repoPath; CommitChanges.message := message;
          CommitChanges.files := files |} w)
  = Resolved
      {| Tool.content :=
           [ {| Tool.type := "text";
                Tool.text :=
                  "Changes committed successfully." +:+ Js.LF
                  +:+ "Commit Hash: " +:+ head |} ] |}.
Proof.
  intros Hr Hm Hstage Hcommit Hrev Hout Hhead.
  rewrite (commit_changes_succeeds _ _ _ w o1 w1 o2 w2 o3 w3) by done.
  unfold Async.outcome. simpl. by rewrite Hout, trim_newline.
Qed.

(** A valid invocation always issues its staging command first, and only
  commands of the sequence stage, commit, hash resolution after it. *)
Lemma commit_changes_stages_first repoPath message files w :
  Js.truthy_opt repoPath = true → Js.truthy_opt message = true →
  ∃ rest,
    Async.trace
      (commit_changes
         {| CommitChanges.repoPath := repoPath; CommitChanges.message := message;
            CommitChanges.files := files |} w)
    = Exec (stage_command files) repoPath :: rest
    ∧ filter is_external_call rest
      `prefix_of` [Exec (commit_command message) repoPath;
                   Exec "git rev-parse HEAD" repoPath].
Proof.
  intros Hr Hm.
  destruct (execAsync (stage_command files) repoPath w) as [[o1|e] w1] eqn:Hstage;
    last first.
  { rewrite (commit_changes_stage_fails _ _ _ w e w1) by done.
    eexists. split; [done|]. apply prefix_nil. }
  destruct (execAsync (commit_command message) repoPath w1) as [[o2|e] w2] eqn:Hcommit;
    last first.
  { rewrite (commit_changes_commit_fails _ _ _ w o1 w1 e w2) by done.
    eexists. split; [done|]. by apply prefix_cons, prefix_nil. }
  destruct (execAsync "git rev-parse HEAD" repoPath w2) as [[o3|e] w3] eqn:Hrev;
    last first.
  { rewrite (commit_changes_rev_parse_fails _ _ _ w o1 w1 o2 w2 e w3) by done.
    eexists. split; [done|]. done. }
  rewrite (commit_changes_succeeds _ _ _ w o1 w1 o2 w2 o3 w3) by done.
  eexists. split; [done|]. done.
Qed.
End commit.

(** C6. With [files] given, exactly the named files are to be staged. The
  names are joined with blanks into the command line unquoted, so for the
  single file name [a b.txt] the staging command is [git add a b.txt]:
  the shell hands git the two paths [a] and [b.txt], not the named file. *)
Theorem commit_changes_file_name_with_blank {collab : Collaborators} (w : World) :
  let params :=
    {| CommitChanges.repoPath := Some "/repo";
       CommitChanges.message := Some "Update";
       CommitChanges.files := Some ["a b.txt"] |} in
  (∃ rest,
     Async.trace (commit_changes params w)
     = Exec "git add a b.txt" (Some "/repo") :: rest)
  ∧ argv "git add a b.txt" = ["git"; "add"; "a"; "b.txt"]
  ∧ argv "git add a b.txt" ≠ "git" :: "add" :: ["a b.txt"].
Proof.
  intros params. split; [|done].
  destruct (commit_changes_stages_first (Some "/repo") (Some "Update")
              (Some ["a b.txt"]) w eq_refl eq_refl) as (rest & Htrace & _).
  by exists rest.
Qed.

(** * Further properties of the code *)

(** ** Startup *)
Example parseInt_port : Startup.parseInt "3000" = Some 3000.
Proof. reflexivity. Qed.

Example parseInt_stops_at_letters : Startup.parseInt " 8080px" = Some 8080.
Proof. reflexivity. Qed.

Example parseInt_negative : Startup.parseInt "-5" = Some (-5).
Proof. reflexivity. Qed.

Example parseInt_empty : Startup.parseInt EmptyString = None.
Proof. reflexivity. Qed.

Lemma check_required_both (env : Startup.Env) :
  Js.truthy_opt (env "GITHUB_TOKEN") = true →
  Js.truthy_opt (env "PORT") = true →
  Startup.check_required Startup.requiredEnvVars env = [].
Proof. intros Ht Hp. simpl. by rewrite Ht, Hp. Qed.

(** X1. Startup goes on exactly when both [GITHUB_TOKEN] and [PORT] are set
    to a non-empty value. Otherwise the process logs one line, naming the
    first of the two that is missing, and exits with status 1 without
    producing a configuration. *)
Theorem startup_requires_token_and_port (env : Startup.Env) :
  let token := Js.truthy_opt (env "GITHUB_TOKEN") in
  let port := Js.truthy_opt (env "PORT") in
  (is_Some (Startup.startup env).2 ↔ token = true ∧ port = true)
  ∧ ((Startup.startup env).1 = [] ↔ token = true ∧ port = true)
  ∧ (token = false →
     Startup.startup env
     = ([ Lifecycle.ConsoleErr "Error: GITHUB_TOKEN environment variable is required";
          Lifecycle.ProcessExit 1 ], None))
  ∧ (token = true → port = false →
     Startup.startup env
     = ([ Lifecycle.ConsoleErr "Error: PORT environment variable is required";
          Lifecycle.ProcessExit 1 ], None)).
Proof.
  intros token port. subst token port. unfold Startup.startup. simpl.
  destruct (Js.truthy_opt (env "GITHUB_TOKEN")), (Js.truthy_opt (env "PORT")); simpl.
  - split_and!; [split; [done | by eexists] | done | done | done].
  - split_and!; [split; [by intros [? [=]] | by intros [_ [=]]]
                | split; [done | by intros [_ [=]]] | done | done].
  - split_and!; [split; [by intros [? [=]] | by intros [[=] _]]
                | split; [done | by intros [[=] _]] | done | done].
  - split_and!; [split; [by intros [? [=]] | by intros [[=] _]]
                | split; [done | by intros [[=] _]] | done | done].
Qed.

(** X2. When startup produces a configuration, the port is read from the
    [PORT] variable itself, which is then set and non-empty: the fallback
    to 3000 is never what is parsed. The token handed to Octokit is the
    non-empty [GITHUB_TOKEN]. *)
Theorem startup_port_from_environment (env : Startup.Env) (config : Startup.Config) :
  (Startup.startup env).2 = Some config →
  ∃ port token,
    env "PORT" = Some port ∧ port ≠ EmptyString
    ∧ Startup.PORT config = Startup.parseInt port
    ∧ env "GITHUB_TOKEN" = Some token ∧ token ≠ EmptyString
    ∧ Startup.auth config = Some token.
Proof.
  unfold Startup.startup. simpl.
  destruct (env "GITHUB_TOKEN") as [[|c token]|] eqn:Ht; simpl; [done| |done].
  destruct (env "PORT") as [[|d port]|] eqn:Hp; simpl; [done| |done].
  intros [= <-]. exists (String d port), (String c token). by split_and!.
Qed.

Lemma startup_port_from_environment_witness :
  let env : Startup.Env :=
    λ name, if decide (name = "PORT") then Some "8080"
            else if decide (name = "GITHUB_TOKEN") then Some "ghp_token" else None in
  ∃ port token,
    env "PORT" = Some port ∧ port ≠ EmptyString
    ∧ Some 8080 = Startup.parseInt port
    ∧ env "GITHUB_TOKEN" = Some token ∧ token ≠ EmptyString
    ∧ Some "ghp_token" = Some token.
Proof.
  intros env.
  exact (startup_port_from_environment env
           {| Startup.PORT := Some 8080; Startup.auth := Some "ghp_token" |} eq_refl).
Defined.

Lemma parse_digits_none_at_other (c : ascii) (rest : string) :
  Startup.digit_value c = None →
  Startup.parse_digits None (String c rest) = None.
Proof. intros Hc. simpl. by rewrite Hc. Qed.

(** X3. Validation only checks that [PORT] is present. A value whose first
    character is neither white space, a sign nor a digit passes it, and
    the port the server is configured with is then NaN. *)
Theorem startup_accepts_port_that_is_no_number
    (env : Startup.Env) (c : ascii) (rest : string) :
  Js.truthy_opt (env "GITHUB_TOKEN") = true →
  env "PORT" = Some (String c rest) →
  Js.is_whitespace c = false →
  c ≠ "-"%char → c ≠ "+"%char →
  Startup.digit_value c = None →
  Startup.startup env
  = ([], Some {| Startup.PORT := None; Startup.auth := env "GITHUB_TOKEN" |}).
Proof.
  intros Ht Hp Hws Hminus Hplus Hdigit.
  unfold Startup.startup. simpl. rewrite Ht, Hp. simpl.
  do 2 f_equal. f_equal.
  unfold Startup.parseInt. cbn [Js.trimStart]. rewrite Hws.
  assert (Hparse := parse_digits_none_at_other c rest Hdigit).
  destruct c as [[] [] [] [] [] [] [] []]; try done.
Qed.

Lemma startup_accepts_port_that_is_no_number_witness :
  let env : Startup.Env :=
    λ name, if decide (name = "PORT") then Some "http"
            else if decide (name = "GITHUB_TOKEN") then Some "ghp_token" else None in
  Startup.startup env
  = ([], Some {| Startup.PORT := None; Startup.auth := Some "ghp_token" |}).
Proof.
  intros env.
  by apply (startup_accepts_port_that_is_no_number env "h" "ttp").
Defined.

(** ** More on the session registry *)
Section registry_more.
Context {V : Type}.
Implicit Types (o : JsObject.t V) (k : string) (v : V).

Lemma own_delete_Some o k k' v :
  JsObject.own (JsObject.delete o k) k' = Some v → JsObject.own o k' = Some v.
Proof.
  destruct (decide (k = k')) as [->|Hne].
  - by rewrite own_delete_eq.
  - by rewrite own_delete_ne.
Qed.

Lemma delete_absent o k : JsObject.own o k = None → JsObject.delete o k = o.
Proof.
  induction o as [|[k0 v0] o IH]; simpl; [done|].
  destruct (decide (k0 = k)); [done|]. intros Hown. by rewrite IH.
Qed.

Lemma delete_app_last o k v :
  JsObject.own o k = None → JsObject.delete (o ++ [(k, v)]) k = o.
Proof.
  induction o as [|[k0 v0] o IH]; simpl.
  - intros _. by rewrite decide_True.
  - destruct (decide (k0 = k)); [done|]. intros Hown. by rewrite IH.
Qed.

Lemma keys_set_present o k v v' :
  JsObject.own o k = Some v' → JsObject.keys (JsObject.set o k v) = JsObject.keys o.
Proof.
  unfold JsObject.keys.
  induction o as [|[k0 v0] o IH]; simpl; [done|].
  destruct (decide (k0 = k)) as [->|Hne]; simpl; [done|].
  intros Hown. f_equal. by apply IH.
Qed.

Lemma length_delete o k : (length (JsObject.delete o k) ≤ length o)%nat.
Proof.
  induction o as [|[k0 v0] o IH]; simpl; [done|].
  destruct (decide (k0 = k)); simpl; lia.
Qed.
End registry_more.

(** Every stored transport sits under its own session id and answers on
    the message endpoint. *)
Lemma reachable_keyed (transports : JsObject.t SSEServerTransport)
    (k : string) (t : SSEServerTransport) :
  Server.reachable transports →
  JsObject.own transports k = Some t →
  sessionId t = k ∧ endpoint t = "/messages".
Proof.
  intros Hreach. revert k t.
  induction Hreach as [|res uuid transports _ IH|transport transports _ IH];
    intros k t Hown.
  - done.
  - simpl in Hown. destruct (decide (uuid = k)) as [->|Hne].
    + rewrite own_set_eq in Hown. by injection Hown as <-.
    + rewrite own_set_ne in Hown by done. by apply IH.
  - apply IH. by eapply own_delete_Some.
Qed.

(** X4. In every registry that the two endpoints can build, a submitted
    message is only ever handed to the transport that was opened under the
    session id the message names: never to the transport of another
    session, and only to one answering on [/messages]. *)
Theorem messages_reach_own_session
    (transports : JsObject.t SSEServerTransport)
    (query : option string) (t : SSEServerTransport) :
  Server.reachable transports →
  Server.post_messages transports query = Server.HandlePostMessage t →
  sessionId t = Js.to_string query
  ∧ endpoint t = "/messages"
  ∧ JsObject.own transports (Js.to_string query) = Some t.
Proof.
  intros Hreach. unfold Server.post_messages, JsObject.get.
  destruct (JsObject.own transports (Js.to_string query)) as [t'|] eqn:Hown.
  - intros [= ->]. by destruct (reachable_keyed _ _ _ Hreach Hown).
  - by destruct (bool_decide _).
Qed.

Lemma messages_reach_own_session_witness :
  let opened := (Server.get_sse 2 "9b31d4aa" (Server.get_sse 1 "5f0c7a2e" JsObject.empty).1) in
  sessionId opened.2 = "9b31d4aa"
  ∧ endpoint opened.2 = "/messages"
  ∧ JsObject.own opened.1 "9b31d4aa" = Some opened.2.
Proof.
  intros opened.
  apply (messages_reach_own_session opened.1 (Some "9b31d4aa") opened.2).
  - apply Server.reachable_open, Server.reachable_open, Server.reachable_init.
  - reflexivity.
Defined.

(** X5. Opening a stream under an id the registry does not hold and then
    closing that stream gives back the registry as it was, entry for entry
    and in the same order. *)
Theorem open_then_close_restores
    (transports : JsObject.t SSEServerTransport) (res : nat) (uuid : string) :
  JsObject.own transports uuid = None →
  let opened := Server.get_sse res uuid transports in
  Server.res_on_close opened.2 opened.1 = transports.
Proof.
  intros Hown opened. subst opened. unfold Server.res_on_close. simpl.
  rewrite set_fresh by done. by apply delete_app_last.
Qed.

Lemma open_then_close_restores_witness :
  let transports := (Server.get_sse 1 "5f0c7a2e" JsObject.empty).1 in
  let opened := Server.get_sse 2 "9b31d4aa" transports in
  Server.res_on_close opened.2 opened.1 = transports.
Proof.
  intros transports.
  exact (open_then_close_restores transports 2 "9b31d4aa" eq_refl).
Defined.

(** X6. The close listener is safe to run for a stream that is not, or no
    longer, registered: it then leaves the registry untouched, so running
    it twice is the same as running it once; it never adds an entry and
    never touches the entry of another session id. *)
Theorem close_unregistered_is_noop
    (transports : JsObject.t SSEServerTransport) (t : SSEServerTransport) :
  (JsObject.own transports (sessionId t) = None → Server.res_on_close t transports = transports)
  ∧ Server.res_on_close t (Server.res_on_close t transports) = Server.res_on_close t transports
  ∧ (length (Server.res_on_close t transports) ≤ length transports)%nat
  ∧ (∀ k, k ≠ sessionId t →
          JsObject.own (Server.res_on_close t transports) k = JsObject.own transports k).
Proof.
  unfold Server.res_on_close. split_and!.
  - apply delete_absent.
  - apply delete_absent, own_delete_eq.
  - apply length_delete.
  - intros k Hk. by apply own_delete_ne.
Qed.

(** X7. Entries are keyed by session id alone. If a second stream is opened
    under an id that is already stored (an ordinary key, as every UUID
    is), its transport takes the place of the first one (the set of ids
    does not change and messages for the id go to the second transport),
    and the close listener of the first stream then removes the second
    stream's entry: messages for the id are no longer handed to any
    transport. *)
Theorem reused_id_replaces_and_is_removed
    (transports : JsObject.t SSEServerTransport) (res1 res2 : nat) (uuid : string) :
  ordinary_key uuid = true →
  let first := Server.get_sse res1 uuid transports in
  let second := Server.get_sse res2 uuid first.1 in
  let after_close := Server.res_on_close first.2 second.1 in
  JsObject.keys second.1 = JsObject.keys first.1
  ∧ Server.post_messages second.1 (Some uuid) = Server.HandlePostMessage second.2
  ∧ JsObject.own after_close uuid = None
  ∧ ∀ t, Server.post_messages after_close (Some uuid) ≠ Server.HandlePostMessage t.
Proof.
  intros Hordinary first second after_close.
  assert (Hgone : JsObject.own after_close uuid = None).
  { subst after_close. unfold Server.res_on_close. simpl. apply own_delete_eq. }
  split_and!.
  - subst second first. simpl. eapply keys_set_present, own_set_eq.
  - apply post_messages_own. subst second. simpl. apply own_set_eq.
  - done.
  - intros t. unfold Server.post_messages, JsObject.get. simpl. rewrite Hgone.
    by destruct (bool_decide _).
Qed.

Lemma reused_id_replaces_and_is_removed_witness :
  let first := Server.get_sse 1 "5f0c7a2e-1b7d" JsObject.empty in
  let second := Server.get_sse 2 "5f0c7a2e-1b7d" first.1 in
  let after_close := Server.res_on_close first.2 second.1 in
  JsObject.keys second.1 = JsObject.keys first.1
  ∧ Server.post_messages second.1 (Some "5f0c7a2e-1b7d") = Server.HandlePostMessage second.2
  ∧ JsObject.own after_close "5f0c7a2e-1b7d" = None
  ∧ ∀ t, Server.post_messages after_close (Some "5f0c7a2e-1b7d")
         ≠ Server.HandlePostMessage t.
Proof.
  exact (reused_id_replaces_and_is_removed JsObject.empty 1 2 "5f0c7a2e-1b7d" eq_refl).
Defined.

(** ** Sessions at shutdown *)
Lemma sse_open_all_fresh (streams : list (nat * string))
    (transports : JsObject.t SSEServerTransport) :
  NoDup streams.*2 →
  (∀ id, id ∈ streams.*2 → JsObject.own transports id = None) →
  sse_open_all streams transports
  = transports ++ ((λ stream, (stream.2, transport_of stream)) <$> streams).
Proof.
  revert transports. induction streams as [|[res id] streams IH]; intros transports.
  - intros _ _. simpl. by rewrite app_nil_r.
  - intros [Hnotin Hnd]%NoDup_cons Hfresh.
    change (sse_open_all ((res, id) :: streams) transports)
      with (sse_open_all streams (Server.get_sse res id transports).1).
    rewrite IH; [|done|].
    + simpl. rewrite set_fresh by (apply Hfresh; simpl; apply list_elem_of_here).
      by rewrite <-app_assoc.
    + intros id' Hin. simpl. rewrite own_set_ne by (intros ->; done).
      apply Hfresh. simpl. by apply list_elem_of_further.
Qed.

(** X8. Streams opened one after the other under pairwise distinct ids
    (ordinary keys, as every UUID is) are all in the registry, oldest
    first, and shutdown closes exactly their transports in the order in
    which the streams were opened, whatever the event that triggers it. *)
Theorem shutdown_closes_in_opening_order
    (close_throws : SSEServerTransport → bool) (event : Lifecycle.ProcessEvent)
    (streams : list (nat * string)) :
  NoDup streams.*2 →
  Forall (λ id, ordinary_key id = true) streams.*2 →
  let transports := sse_open_all streams Server.transports_init in
  JsObject.keys transports = streams.*2
  ∧ JsObject.values transports = transport_of <$> streams
  ∧ Lifecycle.closed_before_exit (Lifecycle.process_on close_throws event transports)
    = transport_of <$> streams.
Proof.
  intros Hnd Hordinary transports.
  assert (Hall : transports = (λ stream, (stream.2, transport_of stream)) <$> streams).
  { subst transports. by rewrite sse_open_all_fresh. }
  assert (Hvalues : JsObject.values transports = transport_of <$> streams).
  { rewrite Hall. unfold JsObject.values. by rewrite <-list_fmap_compose. }
  split_and!.
  - rewrite Hall. unfold JsObject.keys. by rewrite <-list_fmap_compose.
  - done.
  - rewrite <-Hvalues.
    destruct event; exact (shutdown_closed close_throws _ transports).
Qed.

Lemma shutdown_closes_in_opening_order_witness :
  Lifecycle.closed_before_exit
    (Lifecycle.process_on (λ _, false) Lifecycle.SIGTERM
       (sse_open_all [(1%nat, "9b31d4aa-77c0"); (2%nat, "5f0c7a2e-1b7d")]
          Server.transports_init))
  = [ {| endpoint := "/messages"; res := 1; sessionId := "9b31d4aa-77c0" |};
      {| endpoint := "/messages"; res := 2; sessionId := "5f0c7a2e-1b7d" |} ].
Proof.
  assert (Hnd : NoDup [(1%nat, "9b31d4aa-77c0"); (2%nat, "5f0c7a2e-1b7d")].*2).
  { simpl. apply NoDup_cons. split; [|apply NoDup_singleton].
    by intros [=]%list_elem_of_singleton. }
  assert (Hordinary : Forall (λ id, ordinary_key id = true)
                        [(1%nat, "9b31d4aa-77c0"); (2%nat, "5f0c7a2e-1b7d")].*2).
  { simpl. by repeat constructor. }
  exact (proj2 (proj2 (shutdown_closes_in_opening_order (λ _, false) Lifecycle.SIGTERM
                         [(1%nat, "9b31d4aa-77c0"); (2%nat, "5f0c7a2e-1b7d")]
                         Hnd Hordinary))).
Defined.

(** ** More on the resources *)

(** X9. Both resources check [owner] and [repo] before anything else: if
    either is missing or empty the read is rejected with the message that
    says so, the remote is not called and nothing is logged. *)
Theorem resources_reject_missing_owner_or_repo
    {collab : Collaborators} (href : string) (owner repo branch : option string)
    (w : World) :
  Js.truthy_opt owner = false ∨ Js.truthy_opt repo = false →
  github_commits href owner repo branch w
  = (Rejected (Js.Error "Owner and repository parameters are required"), w, [])
  ∧ github_pulls href owner repo w
    = (Rejected (Js.Error "Owner and repository parameters are required"), w, []).
Proof.
  intros Hmissing. unfold github_commits, github_pulls.
  assert (negb (Js.truthy_opt owner) || negb (Js.truthy_opt repo) = true) as ->.
  { destruct Hmissing as [-> | ->]; [done|]. apply orb_true_r. }
  done.
Qed.

Lemma resources_reject_missing_owner_or_repo_witness :
  github_commits (collab := Scripted.working) "github:///demo/commits"
    (Some EmptyString) (Some "demo") None []
  = (Rejected (Js.Error "Owner and repository parameters are required"), [], [])
  ∧ github_pulls (collab := Scripted.working) "github:///demo/commits"
      (Some EmptyString) (Some "demo") []
    = (Rejected (Js.Error "Owner and repository parameters are required"), [], []).
Proof.
  apply (resources_reject_missing_owner_or_repo (collab := Scripted.working)).
  by left.
Defined.

(** X10. For non-empty [owner] and [repo] the pulls resource asks the host
    for the open pull requests sorted by last update, newest first, and
    returns one entry per pull request of the answer, in the answer's
    order: the i-th entry carries number, title, author login, state and
    both timestamps of the i-th pull request. Nothing is sorted, filtered
    or cut locally. *)
Theorem github_pulls_host_order
    {collab : Collaborators} (href : string) (owner repo : option string)
    (w w' : World) (pulls : list Pull.t) :
  let request :=
    {| PullsList.owner := owner; PullsList.repo := repo;
       PullsList.state := "open"; PullsList.sort := "updated";
       PullsList.direction := "desc" |} in
  Js.truthy_opt owner = true →
  Js.truthy_opt repo = true →
  octokit_pulls_list request w = (Resolved pulls, w') →
  ∃ contents,
    github_pulls href owner repo w
    = (Resolved {| Resource.contents := contents |}, w', [OctokitPullsList request])
    ∧ length contents = length pulls
    ∧ ∀ i pr, pulls !! i = Some pr →
        ∃ entry,
          contents !! i = Some entry
          ∧ Resource.uri entry = href
          ∧ Js.includes (Resource.text entry) (Js.number_to_string (Pull.number pr)) = true
          ∧ Js.includes (Resource.text entry) (Pull.title pr) = true
          ∧ Js.includes (Resource.text entry)
              (Js.to_string (Pull.login <$> Pull.user pr)) = true
          ∧ Js.includes (Resource.text entry) (Pull.state pr) = true
          ∧ Js.includes (Resource.text entry) (Pull.created_at pr) = true
          ∧ Js.includes (Resource.text entry) (Pull.updated_at pr) = true.
Proof.
  intros request Ho Hr Hcall.
  eexists. split.
  { unfold github_pulls. rewrite Ho, Hr. simpl. run_async.
    fold request. rewrite Hcall. simpl. reflexivity. }
  rewrite length_map. split; [done|].
  intros i pr Hi. eexists. split.
  { change (map ?f pulls) with (f <$> pulls).
    rewrite list_lookup_fmap, Hi. reflexivity. }
  cbn [Resource.uri Resource.text]. split_and!; [done | ..].
  - apply includes_app.
  - do 2 apply includes_app_r. apply includes_app.
  - do 5 apply includes_app_r. apply includes_app.
  - do 8 apply includes_app_r. apply includes_app.
  - do 11 apply includes_app_r. apply includes_app.
  - do 14 apply includes_app_r. apply includes_app_end.
Qed.

Lemma github_pulls_host_order_witness :
  ∃ contents,
    github_pulls (collab := Fixtures.remote_ok) "github://octo/demo/pulls"
      (Some "octo") (Some "demo") []
    = (Resolved {| Resource.contents := contents |}, [],
       [OctokitPullsList
          {| PullsList.owner := Some "octo"; PullsList.repo := Some "demo";
             PullsList.state := "open"; PullsList.sort := "updated";
             PullsList.direction := "desc" |}])
    ∧ length contents = 1%nat.
Proof.
  destruct (github_pulls_host_order (collab := Fixtures.remote_ok)
              "github://octo/demo/pulls" (Some "octo") (Some "demo") [] []
              [Fixtures.one_pull] eq_refl eq_refl eq_refl)
    as (contents & Hrun & Hlen & _).
  exists contents. split; [exact Hrun | exact Hlen].
Defined.

Example github_pulls_entry :
  Async.outcome
    (github_pulls (collab := Fixtures.remote_ok) "github://octo/demo/pulls"
       (Some "octo") (Some "demo") [])
  = Resolved
      {| Resource.contents :=
           [ {| Resource.uri := "github://octo/demo/pulls";
                Resource.text :=
                  "PR #12: Add parser" +:+ Js.LF +:+ "Author: ada" +:+ Js.LF
                  +:+ "Status: open" +:+ Js.LF
                  +:+ "Created: 2024-05-01T10:00:00Z" +:+ Js.LF
                  +:+ "Updated: 2024-05-02T09:30:00Z" |} ] |}.
Proof. reflexivity. Qed.

(** X11. When the remote rejects the listing of commits, the failure that
    reaches the caller is chosen by the HTTP status alone: 404 names the
    repository, 403 points at the token permissions, and every other
    rejection, as well as a thrown value that is no [Error], gives the
    fixed retry message. The remote's own message is never passed on, and
    the world is the one the remote call left. *)
Theorem github_commits_failure_by_status
    {collab : Collaborators} (href : string) (owner repo branch : option string)
    (w w' : World) (e : Js.Thrown) :
  Js.truthy_opt owner = true →
  Js.truthy_opt repo = true →
  octokit_repos_listCommits
    {| ListCommits.owner := owner; ListCommits.repo := repo;
       ListCommits.sha := branch; ListCommits.per_page := 10 |} w
  = (Rejected e, w') →
  let r := github_commits href owner repo branch w in
  Async.world r = w'
  ∧ (Js.instanceof_Error e = true → Js.status e = Some 404 →
     Async.outcome r
     = Rejected (Js.Error ("Repository " +:+ Js.to_string owner +:+ "/"
                           +:+ Js.to_string repo +:+ " not found")))
  ∧ (Js.instanceof_Error e = true → Js.status e = Some 403 →
     Async.outcome r
     = Rejected (Js.Error "Access denied. Please check your GitHub token permissions"))
  ∧ (Js.instanceof_Error e = false
     ∨ (Js.status e ≠ Some 404 ∧ Js.status e ≠ Some 403) →
     Async.outcome r = Rejected (Js.Error "Failed to fetch commits. Please try again later.")).
Proof.
  intros Ho Hr Hcall r.
  assert (Hout : Async.outcome r = Rejected (commits_failure owner repo e)).
  { subst r. by eapply github_commits_rejected. }
  split_and!.
  - subst r. unfold github_commits. rewrite Ho, Hr. simpl. run_async. rewrite Hcall.
    simpl. destruct (Js.instanceof_Error e); simpl; [|done].
    destruct (decide (Js.status e = Some 404)); simpl; [done|].
    by destruct (decide (Js.status e = Some 403)).
  - intros Hinst H404. rewrite Hout. unfold commits_failure.
    by rewrite Hinst, bool_decide_true.
  - intros Hinst H403. rewrite Hout. unfold commits_failure.
    rewrite Hinst, bool_decide_false, bool_decide_true; [done..|].
    by rewrite H403.
  - intros Hother. rewrite Hout. unfold commits_failure.
    destruct Hother as [-> | [H404 H403]]; [done|].
    rewrite !bool_decide_false by done. by rewrite !andb_false_r.
Qed.

Lemma github_commits_failure_by_status_witness :
  Async.outcome
    (github_commits (collab := Scripted.failing_remote 403)
       "github://octo/private/commits" (Some "octo") (Some "private") (Some "main") [])
  = Rejected (Js.Error "Access denied. Please check your GitHub token permissions").
Proof.
  by apply (github_commits_failure_by_status (collab := Scripted.failing_remote 403)
              "github://octo/private/commits" (Some "octo") (Some "private") (Some "main")
              [] [] (Scripted.RequestError 403) eq_refl eq_refl eq_refl).
Defined.


(** ** The two revisions of the commits resource *)

(** X12. The stdio revision of the commits resource does not translate
    failures: whatever the remote rejects with reaches the caller as the
    very same value, status included, after one log line; and it does not
    check its arguments, so the remote is called even when [owner] or
    [repo] is missing. *)
Theorem stdio_commits_rethrows
    {collab : Collaborators} (href : string) (owner repo : option string)
    (w w' : World) (e : Js.Thrown) :
  let request :=
    {| ListCommits.owner := owner; ListCommits.repo := repo;
       ListCommits.sha := None; ListCommits.per_page := 10 |} in
  octokit_repos_listCommits request w = (Rejected e, w') →
  stdio_github_commits href owner repo w
  = (Rejected e, w', [ReposListCommits request; ConsoleError "Error fetching commits:"]).
Proof.
  intros request Hcall. unfold stdio_github_commits. run_async.
  fold request. by rewrite Hcall.
Qed.

Lemma stdio_commits_rethrows_witness :
  stdio_github_commits (collab := Scripted.failing_remote 404)
    "github://octo/missing/commits" None (Some "missing") []
  = (Rejected (Scripted.RequestError 404), [],
     [ReposListCommits
        {| ListCommits.owner := None; ListCommits.repo := Some "missing";
           ListCommits.sha := None; ListCommits.per_page := 10 |};
      ConsoleError "Error fetching commits:"]).
Proof.
  exact (stdio_commits_rethrows (collab := Scripted.failing_remote 404)
           "github://octo/missing/commits" None (Some "missing") [] []
           (Scripted.RequestError 404) eq_refl).
Defined.

(** X13. On arguments that pass the later revision's check and a remote
    that answers, both revisions of the commits resource behave alike when
    no branch is named: same remote call, same world, same entries. *)
Theorem commits_revisions_agree
    {collab : Collaborators} (href : string) (owner repo : option string)
    (w w' : World) (commits : list Commit.t) :
  Js.truthy_opt owner = true →
  Js.truthy_opt repo = true →
  octokit_repos_listCommits
    {| ListCommits.owner := owner; ListCommits.repo := repo;
       ListCommits.sha := None; ListCommits.per_page := 10 |} w
  = (Resolved commits, w') →
  github_commits href owner repo None w = stdio_github_commits href owner repo w.
Proof.
  intros Ho Hr Hcall. unfold github_commits, stdio_github_commits.
  rewrite Ho, Hr. simpl. run_async. by rewrite Hcall.
Qed.

Lemma commits_revisions_agree_witness :
  github_commits (collab := Scripted.working) "github://octo/demo/commits"
    (Some "octo") (Some "demo") None []
  = stdio_github_commits (collab := Scripted.working) "github://octo/demo/commits"
      (Some "octo") (Some "demo") [].
Proof.
  exact (commits_revisions_agree (collab := Scripted.working)
           "github://octo/demo/commits" (Some "octo") (Some "demo") [] []
           Scripted.two_commits eq_refl eq_refl eq_refl).
Defined.

(** ** Merging and creating pull requests *)

(** X14. [merge-pull-request] calls the remote only with a non-empty
    [owner] and [repo] and a pull number other than 0: a missing or empty
    owner or repo, a missing pull number and the pull number 0 are all
    turned down before any remote call, with the tool's fixed failure. *)
Theorem merge_pull_request_requires_arguments
    {collab : Collaborators} (params : MergePullRequest.params) (w : World) :
  Js.truthy_opt (MergePullRequest.owner params) = false
  ∨ Js.truthy_opt (MergePullRequest.repo params) = false
  ∨ MergePullRequest.pullNumber params = None
  ∨ MergePullRequest.pullNumber params = Some 0 →
  merge_pull_request params w
  = (Rejected (Js.Error "Failed to merge pull request"), w,
     [ConsoleError "Error merging pull request:"]).
Proof.
  intros Hmissing. unfold merge_pull_request. run_async.
  assert (negb (Js.truthy_opt (MergePullRequest.owner params))
          || negb (Js.truthy_opt (MergePullRequest.repo params))
          || negb (truthy_number (MergePullRequest.pullNumber params)) = true) as ->.
  { destruct Hmissing as [-> | [-> | [-> | ->]]]; simpl;
      rewrite ?orb_true_r; done. }
  done.
Qed.

Lemma merge_pull_request_requires_arguments_witness :
  merge_pull_request (collab := Fixtures.remote_ok)
    {| MergePullRequest.owner := Some "octo"; MergePullRequest.repo := Some "demo";
       MergePullRequest.pullNumber := Some 0; MergePullRequest.mergeMethod := None;
       MergePullRequest.commitMessage := None |} []
  = (Rejected (Js.Error "Failed to merge pull request"), [],
     [ConsoleError "Error merging pull request:"]).
Proof.
  apply (merge_pull_request_requires_arguments (collab := Fixtures.remote_ok)).
  by right; right; right.
Defined.



(** *** Prefixes and suffixes of concatenations *)
Lemma string_app_assoc (a b c : string) : (a +:+ b) +:+ c = a +:+ b +:+ c.
Proof. induction a as [|x a IH]; [done|]. by rewrite !app_cons, IH. Qed.

Lemma includes_app_start (x rest : string) : Js.includes (x +:+ rest) x = true.
Proof. apply includes_startsWith, startsWith_app. Qed.

Lemma startsWith_app_l (s p rest : string) :
  Js.startsWith s p = true → Js.startsWith (s +:+ rest) p = true.
Proof.
  revert s. induction p as [|c p IH]; intros s; [by destruct (s +:+ rest)|].
  destruct s as [|d s]; [done|]. rewrite app_cons. simpl.
  destruct (decide (c = d)); [apply IH | done].
Qed.

Lemma rev_app_acc (s acc : string) : String.rev_app s acc = String.rev s +:+ acc.
Proof.
  revert acc. induction s as [|c s IH]; intros acc; [done|].
  unfold String.rev. simpl. rewrite (IH (String c acc)), (IH (String c EmptyString)).
  by rewrite string_app_assoc.
Qed.

Lemma rev_app_app (a b acc : string) :
  String.rev_app (a +:+ b) acc = String.rev_app b (String.rev_app a acc).
Proof.
  revert acc. induction a as [|c a IH]; intros acc; [done|].
  rewrite app_cons. simpl. apply IH.
Qed.

Lemma rev_app_string (a b : string) :
  String.rev (a +:+ b) = String.rev b +:+ String.rev a.
Proof. unfold String.rev at 1. rewrite rev_app_app. apply rev_app_acc. Qed.

Lemma endsWith_refl (x : string) : Js.endsWith x x = true.
Proof.
  unfold Js.endsWith. rewrite <-(string_app_empty_r (String.rev x)) at 1.
  apply startsWith_app.
Qed.

Lemma endsWith_app_r (before s x : string) :
  Js.endsWith s x = true → Js.endsWith (before +:+ s) x = true.
Proof.
  unfold Js.endsWith. intros Hs. rewrite rev_app_string. by apply startsWith_app_l.
Qed.

(** X16. [create-pull-request] needs a non-empty [owner], [repo], [title],
    [head] and [base]: if any of the five is missing or empty the remote
    is not called and the tool's fixed failure is returned; [body] is not
    required. *)
Theorem create_pull_request_requires_arguments
    {collab : Collaborators} (params : CreatePullRequest.params) (w : World) :
  Js.truthy_opt (CreatePullRequest.owner params) = false
  ∨ Js.truthy_opt (CreatePullRequest.repo params) = false
  ∨ Js.truthy_opt (CreatePullRequest.title params) = false
  ∨ Js.truthy_opt (CreatePullRequest.head params) = false
  ∨ Js.truthy_opt (CreatePullRequest.base params) = false →
  create_pull_request params w
  = (Rejected (Js.Error "Failed to create pull request"), w,
     [ConsoleError "Error creating pull request:"]).
Proof.
  intros Hmissing. unfold create_pull_request. run_async.
  assert (negb (Js.truthy_opt (CreatePullRequest.owner params))
          || negb (Js.truthy_opt (CreatePullRequest.repo params))
          || negb (Js.truthy_opt (CreatePullRequest.title params))
          || negb (Js.truthy_opt (CreatePullRequest.head params))
          || negb (Js.truthy_opt (CreatePullRequest.base params)) = true) as ->.
  { destruct Hmissing as [-> | [-> | [-> | [-> | ->]]]]; simpl;
      rewrite ?orb_true_r; done. }
  done.
Qed.

Lemma create_pull_request_requires_arguments_witness :
  create_pull_request (collab := Fixtures.remote_ok)
    {| CreatePullRequest.owner := Some "octo"; CreatePullRequest.repo := Some "demo";
       CreatePullRequest.title := Some "Add parser"; CreatePullRequest.body := Some "text";
       CreatePullRequest.head := None; CreatePullRequest.base := Some "main" |} []
  = (Rejected (Js.Error "Failed to create pull request"), [],
     [ConsoleError "Error creating pull request:"]).
Proof.
  apply (create_pull_request_requires_arguments (collab := Fixtures.remote_ok)).
  by right; right; right; left.
Defined.

(** X17. With the five required arguments [create-pull-request] makes
    exactly one remote call that carries all six arguments unchanged, the
    optional [body] included, and when the remote answers the text reports
    the number and the URL of the new pull request. *)
Theorem create_pull_request_calls_remote_once
    {collab : Collaborators} (params : CreatePullRequest.params)
    (w w' : World) (pr : PullsCreate.data) :
  let request :=
    {| PullsCreate.owner := CreatePullRequest.owner params;
       PullsCreate.repo := CreatePullRequest.repo params;
       PullsCreate.title := CreatePullRequest.title params;
       PullsCreate.body := CreatePullRequest.body params;
       PullsCreate.head := CreatePullRequest.head params;
       PullsCreate.base := CreatePullRequest.base params |} in
  Js.truthy_opt (CreatePullRequest.owner params) = true →
  Js.truthy_opt (CreatePullRequest.repo params) = true →
  Js.truthy_opt (CreatePullRequest.title params) = true →
  Js.truthy_opt (CreatePullRequest.head params) = true →
  Js.truthy_opt (CreatePullRequest.base params) = true →
  octokit_pulls_create request w = (Resolved pr, w') →
  ∃ text,
    create_pull_request params w
    = (Resolved {| Tool.content := [ {| Tool.type := "text"; Tool.text := text |} ] |},
       w', [OctokitPullsCreate request])
    ∧ Js.startsWith text "Pull request created successfully." = true
    ∧ Js.includes text ("Number: #" +:+ Js.number_to_string (PullsCreate.number pr)) = true
    ∧ Js.endsWith text ("URL: " +:+ PullsCreate.html_url pr) = true.
Proof.
  intros request Ho Hr Ht Hh Hb Hcall. eexists. split.
  { unfold create_pull_request. run_async. rewrite Ho, Hr, Ht, Hh, Hb. simpl.
    fold request. rewrite Hcall. reflexivity. }
  split_and!.
  - apply startsWith_app.
  - do 2 apply includes_app_r. rewrite <-string_app_assoc. apply includes_app_start.
  - do 5 apply endsWith_app_r. apply endsWith_refl.
Qed.

Lemma create_pull_request_calls_remote_once_witness :
  ∃ text,
    Async.outcome
      (create_pull_request (collab := Fixtures.remote_ok)
         {| CreatePullRequest.owner := Some "octo"; CreatePullRequest.repo := Some "demo";
            CreatePullRequest.title := Some "Add parser"; CreatePullRequest.body := None;
            CreatePullRequest.head := Some "feature"; CreatePullRequest.base := Some "main" |}
         [])
    = Resolved {| Tool.content := [ {| Tool.type := "text"; Tool.text := text |} ] |}
    ∧ Js.endsWith text "URL: https://github.com/octo/demo/pull/13" = true.
Proof.
  destruct (create_pull_request_calls_remote_once (collab := Fixtures.remote_ok)
              {| CreatePullRequest.owner := Some "octo"; CreatePullRequest.repo := Some "demo";
                 CreatePullRequest.title := Some "Add parser"; CreatePullRequest.body := None;
                 CreatePullRequest.head := Some "feature";
                 CreatePullRequest.base := Some "main" |}
              [] [] Fixtures.created eq_refl eq_refl eq_refl eq_refl eq_refl eq_refl)
    as (text & Hrun & _ & _ & Hurl).
  exists text. split; [by rewrite Hrun | exact Hurl].
Defined.

(** ** More on committing *)

(** X18. [commit-changes] runs no command at all unless both [repoPath] and
    [message] are given and non-empty; otherwise it returns its fixed
    failure, whatever [files] holds. *)
Theorem commit_changes_requires_arguments
    {collab : Collaborators} (params : CommitChanges.params) (w : World) :
  Js.truthy_opt (CommitChanges.repoPath params) = false
  ∨ Js.truthy_opt (CommitChanges.message params) = false →
  commit_changes params w
  = (Rejected (Js.Error "Failed to commit changes"), w,
     [ConsoleError "Error committing changes:"]).
Proof.
  intros Hmissing. destruct params as [repoPath message files].
  apply commit_changes_invalid. simpl in *.
  destruct Hmissing as [-> | ->]; [done | apply andb_false_r].
Qed.

Lemma commit_changes_requires_arguments_witness :
  commit_changes (collab := Scripted.working)
    {| CommitChanges.repoPath := Some "/repo"; CommitChanges.message := Some EmptyString;
       CommitChanges.files := Some ["a.txt"] |} []
  = (Rejected (Js.Error "Failed to commit changes"), [],
     [ConsoleError "Error committing changes:"]).
Proof.
  apply (commit_changes_requires_arguments (collab := Scripted.working)).
  by right.
Defined.

(** X19. A valid [commit-changes] invocation runs, in the repository
    directory, the commands stage, commit, resolve HEAD in this order, each
    in the world the previous one left, and stops at the first one that
    fails: a failed stage is followed by no commit, a failed commit by no
    hash resolution. It returns a result exactly when all three succeeded;
    every failure is the same fixed one, logged last. *)
Theorem commit_changes_runs_in_order
    {collab : Collaborators} (repoPath message : option string)
    (files : option (list string)) (w : World) :
  let r :=
    commit_changes
      {| CommitChanges.repoPath := repoPath; CommitChanges.message := message;
         CommitChanges.files := files |} w in
  let stage := Exec (stage_command files) repoPath in
  let commit := Exec (commit_command message) repoPath in
  let resolve := Exec "git rev-parse HEAD" repoPath in
  let failure : Completion Tool.result := Rejected (Js.Error "Failed to commit changes") in
  let logged := ConsoleError "Error committing changes:" in
  Js.truthy_opt repoPath = true →
  Js.truthy_opt message = true →
  (∀ e w1,
     execAsync (stage_command files) repoPath w = (Rejected e, w1) →
     r = (failure, w1, [stage; logged]))
  ∧ (∀ o1 w1 e w2,
       execAsync (stage_command files) repoPath w = (Resolved o1, w1) →
       execAsync (commit_command message) repoPath w1 = (Rejected e, w2) →
       r = (failure, w2, [stage; commit; logged]))
  ∧ (∀ o1 w1 o2 w2 e w3,
       execAsync (stage_command files) repoPath w = (Resolved o1, w1) →
       execAsync (commit_command message) repoPath w1 = (Resolved o2, w2) →
       execAsync "git rev-parse HEAD" repoPath w2 = (Rejected e, w3) →
       r = (failure, w3, [stage; commit; resolve; logged]))
  ∧ (∀ o1 w1 o2 w2 o3 w3,
       execAsync (stage_command files) repoPath w = (Resolved o1, w1) →
       execAsync (commit_command message) repoPath w1 = (Resolved o2, w2) →
       execAsync "git rev-parse HEAD" repoPath w2 = (Resolved o3, w3) →
       ∃ result, r = (Resolved result, w3, [stage; commit; resolve]))
  ∧ (∀ result, Async.outcome r = Resolved result →
       Async.trace r = [stage; commit; resolve]
       ∧ ∃ o1 w1 o2 w2 o3,
           execAsync (stage_command files) repoPath w = (Resolved o1, w1)
           ∧ execAsync (commit_command message) repoPath w1 = (Resolved o2, w2)
           ∧ execAsync "git rev-parse HEAD" repoPath w2 = (Resolved o3, Async.world r))
  ∧ (∀ e, Async.outcome r = Rejected e → e = Js.Error "Failed to commit changes")
  ∧ ∃ n, (1 ≤ n ≤ 3)%nat
      ∧ filter is_external_call (Async.trace r) = take n [stage; commit; resolve].
Proof.
  intros r stage commit resolve failure logged Hr Hm.
  subst r stage commit resolve failure logged.
  split_and!.
  - intros e w1 Hstage.
    exact (commit_changes_stage_fails _ _ _ w e w1 Hr Hm Hstage).
  - intros o1 w1 e w2 Hstage Hcommit.
    exact (commit_changes_commit_fails _ _ _ w o1 w1 e w2 Hr Hm Hstage Hcommit).
  - intros o1 w1 o2 w2 e w3 Hstage Hcommit Hrev.
    exact (commit_changes_rev_parse_fails _ _ _ w o1 w1 o2 w2 e w3 Hr Hm Hstage Hcommit Hrev).
  - intros o1 w1 o2 w2 o3 w3 Hstage Hcommit Hrev. eexists.
    exact (commit_changes_succeeds _ _ _ w o1 w1 o2 w2 o3 w3 Hr Hm Hstage Hcommit Hrev).
  - intros result.
    destruct (execAsync (stage_command files) repoPath w) as [[o1|e1] w1] eqn:Hstage;
      last first.
    { by rewrite (commit_changes_stage_fails _ _ _ w e1 w1). }
    destruct (execAsync (commit_command message) repoPath w1) as [[o2|e2] w2] eqn:Hcommit;
      last first.
    { by rewrite (commit_changes_commit_fails _ _ _ w o1 w1 e2 w2). }
    destruct (execAsync "git rev-parse HEAD" repoPath w2) as [[o3|e3] w3] eqn:Hrev;
      last first.
    { by rewrite (commit_changes_rev_parse_fails _ _ _ w o1 w1 o2 w2 e3 w3). }
    rewrite (commit_changes_succeeds _ _ _ w o1 w1 o2 w2 o3 w3) by done.
    intros _. split; [done|]. exists o1, w1, o2, w2, o3. by rewrite Hcommit, Hrev.
  - intros e.
    destruct (execAsync (stage_command files) repoPath w) as [[o1|e1] w1] eqn:Hstage;
      last first.
    { rewrite (commit_changes_stage_fails _ _ _ w e1 w1) by done. by intros [= <-]. }
    destruct (execAsync (commit_command message) repoPath w1) as [[o2|e2] w2] eqn:Hcommit;
      last first.
    { rewrite (commit_changes_commit_fails _ _ _ w o1 w1 e2 w2) by done.
      by intros [= <-]. }
    destruct (execAsync "git rev-parse HEAD" repoPath w2) as [[o3|e3] w3] eqn:Hrev;
      last first.
    { rewrite (commit_changes_rev_parse_fails _ _ _ w o1 w1 o2 w2 e3 w3) by done.
      by intros [= <-]. }
    by rewrite (commit_changes_succeeds _ _ _ w o1 w1 o2 w2 o3 w3).
  - destruct (execAsync (stage_command files) repoPath w) as [[o1|e1] w1] eqn:Hstage;
      last first.
    { rewrite (commit_changes_stage_fails _ _ _ w e1 w1) by done.
      exists 1%nat. split; [lia | done]. }
    destruct (execAsync (commit_command message) repoPath w1) as [[o2|e2] w2] eqn:Hcommit;
      last first.
    { rewrite (commit_changes_commit_fails _ _ _ w o1 w1 e2 w2) by done.
      exists 2%nat. split; [lia | done]. }
    destruct (execAsync "git rev-parse HEAD" repoPath w2) as [[o3|e3] w3] eqn:Hrev;
      last first.
    { rewrite (commit_changes_rev_parse_fails _ _ _ w o1 w1 o2 w2 e3 w3) by done.
      exists 3%nat. split; [lia | done]. }
    rewrite (commit_changes_succeeds _ _ _ w o1 w1 o2 w2 o3 w3) by done.
    exists 3%nat. split; [lia | done].
Qed.

Lemma commit_changes_runs_in_order_witness :
  commit_changes (collab := Fixtures.nothing_to_commit)
    {| CommitChanges.repoPath := Some "/repo"; CommitChanges.message := Some "Update";
       CommitChanges.files := None |} []
  = (Rejected (Js.Error "Failed to commit changes"),
     ["git add ."; "git commit -m " +:+ Js.DQUOTE +:+ "Update" +:+ Js.DQUOTE],
     [ Exec "git add ." (Some "/repo");
       Exec ("git commit -m " +:+ Js.DQUOTE +:+ "Update" +:+ Js.DQUOTE) (Some "/repo");
       ConsoleError "Error committing changes:" ]).
Proof.
  destruct (commit_changes_runs_in_order (collab := Fixtures.nothing_to_commit)
              (Some "/repo") (Some "Update") None [] eq_refl eq_refl)
    as (_ & Hcommit_fails & _).
  exact (Hcommit_fails {| stdout := EmptyString; stderr := EmptyString |} ["git add ."]
           (Js.Error "nothing to commit")
           ["git add ."; "git commit -m " +:+ Js.DQUOTE +:+ "Update" +:+ Js.DQUOTE]
           eq_refl eq_refl).
Defined.

Example commit_changes_stops_at_failed_commit :
  commit_changes (collab := Fixtures.nothing_to_commit)
    {| CommitChanges.repoPath := Some "/repo"; CommitChanges.message := Some "Update";
       CommitChanges.files := None |} []
  = (Rejected (Js.Error "Failed to commit changes"),
     ["git add ."; "git commit -m " +:+ Js.DQUOTE +:+ "Update" +:+ Js.DQUOTE],
     [ Exec "git add ." (Some "/repo");
       Exec ("git commit -m " +:+ Js.DQUOTE +:+ "Update" +:+ Js.DQUOTE) (Some "/repo");
       ConsoleError "Error committing changes:" ]).
Proof. reflexivity. Qed.

(** X20. When all three commands succeed and [git rev-parse HEAD] prints a
    hash followed by a newline, [commit-changes] reports exactly that
    hash, without the newline, after having run the three commands in
    order. *)
Theorem commit_changes_reports_head
    {collab : Collaborators} (repoPath message : option string)
    (files : option (list string)) (w w1 w2 w3 : World) (o1 o2 o3 : ExecOutput)
    (head : string) :
  Js.truthy_opt repoPath = true →
  Js.truthy_opt message = true →
  execAsync (stage_command files) repoPath w = (Resolved o1, w1) →
  execAsync (commit_command message) repoPath w1 = (Resolved o2, w2) →
  execAsync "git rev-parse HEAD" repoPath w2 = (Resolved o3, w3) →
  stdout o3 = head +:+ Js.LF →
  no_whitespace head = true →
  commit_changes
    {| CommitChanges.repoPath := repoPath; CommitChanges.message := message;
       CommitChanges.files := files |} w
  = (Resolved
       {| Tool.content :=
            [ {| Tool.type := "text";
                 Tool.text :=
                   "Changes committed successfully." +:+ Js.LF
                   +:+ "Commit Hash: " +:+ head |} ] |},
     w3,
     [ Exec (stage_command files) repoPath;
       Exec (commit_command message) repoPath;
       Exec "git rev-parse HEAD" repoPath ]).
Proof.
  intros Hr Hm Hstage Hcommit Hrev Hout Hhead.
  rewrite (commit_changes_succeeds _ _ _ w o1 w1 o2 w2 o3 w3) by done.
  by rewrite Hout, trim_newline.
Qed.

Lemma commit_changes_reports_head_witness :
  Async.outcome
    (commit_changes (collab := Scripted.working)
       {| CommitChanges.repoPath := Some "/repo"; CommitChanges.message := Some "Update";
          CommitChanges.files := Some ["a.txt"] |} [])
  = Resolved
      {| Tool.content :=
           [ {| Tool.type := "text";
                Tool.text :=
                  "Changes committed successfully." +:+ Js.LF
                  +:+ "Commit Hash: 3f2a9c1" |} ] |}.
Proof.
  by rewrite (commit_changes_reports_head (collab := Scripted.working)
                (Some "/repo") (Some "Update") (Some ["a.txt"])
                [] _ _ _ _ _ _ "3f2a9c1" eq_refl eq_refl eq_refl eq_refl eq_refl
                eq_refl eq_refl).
Defined.

(** X21. The first command of a valid [commit-changes] invocation is the
    staging command. With file names made of letters, digits and the
    characters [. _ - /] git is handed exactly the named files, in the
    given order; with [files] absent or empty it is handed the single
    path [.], the whole working tree. *)
Theorem commit_changes_stages_named_files
    {collab : Collaborators} (repoPath message : option string)
    (files : option (list string)) (w : World) :
  Js.truthy_opt repoPath = true →
  Js.truthy_opt message = true →
  match files with
  | Some (file :: others) => forallb plain_word (file :: others) = true
  | Some [] | None => True
  end →
  ∃ command rest,
    Async.trace
      (commit_changes
         {| CommitChanges.repoPath := repoPath; CommitChanges.message := message;
            CommitChanges.files := files |} w)
    = Exec command repoPath :: rest
    ∧ argv command
      = "git" :: "add"
        :: match files with
           | Some (file :: others) => file :: others
           | Some [] | None => ["."]
           end.
Proof.
  intros Hr Hm Hplain.
  destruct (commit_changes_stages_first repoPath message files w Hr Hm)
    as (rest & Htrace & _).
  exists (stage_command files), rest. split; [done|].
  destruct files as [[|file others]|]; [done | | done].
  by apply argv_stage_command_plain.
Qed.

Lemma commit_changes_stages_named_files_witness :
  ∃ command rest,
    Async.trace
      (commit_changes (collab := Scripted.working)
         {| CommitChanges.repoPath := Some "/repo"; CommitChanges.message := Some "Update";
            CommitChanges.files := Some ["src/a.txt"; "README.md"] |} [])
    = Exec command (Some "/repo") :: rest
    ∧ argv command = ["git"; "add"; "src/a.txt"; "README.md"].
Proof.
  exact (commit_changes_stages_named_files (collab := Scripted.working)
           (Some "/repo") (Some "Update") (Some ["src/a.txt"; "README.md"]) []
           eq_refl eq_refl eq_refl).
Defined.

(** ** The git helpers *)

(** X22. [getGitStatus] runs [git status --porcelain] and then [git diff]
    in the given directory. If the first fails the second is not run; any
    failure is logged and replaced by the helper's own fixed error; on
    success the pair of the two outputs is returned untouched. *)
Theorem getGitStatus_runs_status_then_diff
    {collab : Collaborators} (repoPath : option string) (w : World) :
  let r := getGitStatus repoPath w in
  let status := Exec "git status --porcelain" repoPath in
  let diff := Exec "git diff" repoPath in
  (∀ e w1, execAsync "git status --porcelain" repoPath w = (Rejected e, w1) →
     r = (Rejected (Js.Error "Failed to get git status"), w1,
          [status; ConsoleError "Error getting git status:"]))
  ∧ (∀ o1 w1 e w2,
       execAsync "git status --porcelain" repoPath w = (Resolved o1, w1) →
       execAsync "git diff" repoPath w1 = (Rejected e, w2) →
       r = (Rejected (Js.Error "Failed to get git status"), w2,
            [status; diff; ConsoleError "Error getting git status:"]))
  ∧ (∀ o1 w1 o2 w2,
       execAsync "git status --porcelain" repoPath w = (Resolved o1, w1) →
       execAsync "git diff" repoPath w1 = (Resolved o2, w2) →
       r = (Resolved (stdout o1, stdout o2), w2, [status; diff]))
  ∧ (∀ e, Async.outcome r = Rejected e → e = Js.Error "Failed to get git status")
  ∧ (∃ rest, Async.trace r = status :: rest).
Proof.
  intros r status diff. subst r status diff. unfold getGitStatus. run_async.
  destruct (execAsync "git status --porcelain" repoPath w) as [[o1|e1] w1] eqn:Hs.
  - destruct (execAsync "git diff" repoPath w1) as [[o2|e2] w2] eqn:Hd.
    + split_and!; [done | | | done | by eexists].
      * intros o1' w1' e w2' [= <- <-] Hd'. congruence.
      * intros o1' w1' o2' w2' [= <- <-] Hd'. simpl. congruence.
    + split_and!; [done | | | | by eexists].
      * intros o1' w1' e w2' [= <- <-] Hd'. simpl. congruence.
      * intros o1' w1' o2' w2' [= <- <-] Hd'. congruence.
      * by intros e [= <-].
  - split_and!; [| done | done | | by eexists].
    + by intros e w1' [= <- <-].
    + by intros e [= <-].
Qed.

(** *** What [trim] removes and what it leaves *)
Lemma trimStart_split (s : string) :
  ∃ removed,
    s = removed +:+ Js.trimStart s ∧ all_chars Js.is_whitespace removed = true.
Proof.
  induction s as [|c s (removed & Heq & Hws)]; [by exists EmptyString|].
  simpl. destruct (Js.is_whitespace c) eqn:Hc.
  - exists (String c removed). rewrite app_cons, <-Heq. simpl. by rewrite Hc.
  - by exists EmptyString.
Qed.

Lemma trimEnd_split (s : string) :
  ∃ removed,
    s = Js.trimEnd s +:+ removed ∧ all_chars Js.is_whitespace removed = true.
Proof.
  induction s as [|c s (removed & Heq & Hws)]; [by exists EmptyString|].
  simpl. destruct (Js.trimEnd s) as [|d kept] eqn:Hkept.
  - rewrite app_empty in Heq. subst removed.
    destruct (Js.is_whitespace c) eqn:Hc.
    + exists (String c s). rewrite app_empty. simpl. by rewrite Hc.
    + by exists s.
  - exists removed. by rewrite !app_cons, <-app_cons, <-Heq.
Qed.

Lemma trimStart_starts (s : string) :
  starts_with_whitespace (Js.trimStart s) = false.
Proof.
  induction s as [|c s IH]; [done|]. simpl.
  by destruct (Js.is_whitespace c) eqn:Hc; simpl; rewrite ?Hc.
Qed.

Lemma trimEnd_ends (s : string) : ends_with_whitespace (Js.trimEnd s) = false.
Proof.
  induction s as [|c s IH]; [done|]. simpl.
  destruct (Js.trimEnd s) as [|d kept].
  - by destruct (Js.is_whitespace c) eqn:Hc; simpl; rewrite ?Hc.
  - done.
Qed.

Lemma trimEnd_starts (s : string) :
  starts_with_whitespace s = false → starts_with_whitespace (Js.trimEnd s) = false.
Proof.
  destruct s as [|c s]; [done|]. simpl. intros Hc.
  destruct (Js.trimEnd s); [by rewrite Hc | done].
Qed.

(** [trim] takes off white space at both ends and nothing else. *)
Lemma trim_spec (s : string) :
  starts_with_whitespace (Js.trim s) = false
  ∧ ends_with_whitespace (Js.trim s) = false
  ∧ ∃ before after,
      s = before +:+ Js.trim s +:+ after
      ∧ all_chars Js.is_whitespace before = true
      ∧ all_chars Js.is_whitespace after = true.
Proof.
  unfold Js.trim. split_and!.
  - apply trimEnd_starts, trimStart_starts.
  - apply trimEnd_ends.
  - destruct (trimStart_split s) as (before & Hs & Hbefore).
    destruct (trimEnd_split (Js.trimStart s)) as (after & Ht & Hafter).
    exists before, after. by rewrite <-Ht, <-Hs.
Qed.

(** X23. [getCurrentBranch] runs [git branch --show-current] in the given
    directory and returns its output with the white space at both ends
    taken off and nothing else changed: the name returned neither starts
    nor ends with white space. A failed command is logged and replaced by
    the helper's own fixed error. *)
Theorem getCurrentBranch_returns_trimmed_output
    {collab : Collaborators} (repoPath : option string) (w : World) :
  let r := getCurrentBranch repoPath w in
  (∀ branch, Async.outcome r = Resolved branch →
     Async.trace r = [Exec "git branch --show-current" repoPath]
     ∧ starts_with_whitespace branch = false
     ∧ ends_with_whitespace branch = false
     ∧ ∃ out w' before after,
         execAsync "git branch --show-current" repoPath w = (Resolved out, w')
         ∧ stdout out = before +:+ branch +:+ after
         ∧ all_chars Js.is_whitespace before = true
         ∧ all_chars Js.is_whitespace after = true)
  ∧ (∀ e, Async.outcome r = Rejected e →
       e = Js.Error "Failed to get current branch"
       ∧ Async.trace r
         = [Exec "git branch --show-current" repoPath;
            ConsoleError "Error getting current branch:"]).
Proof.
  intros r. subst r. unfold getCurrentBranch. run_async.
  destruct (execAsync "git branch --show-current" repoPath w) as [[out|e] w'] eqn:Hexec;
    simpl.
  - split; [|done]. intros branch [= <-].
    destruct (trim_spec (stdout out)) as (Hstart & Hend & before & after & Heq & Hb & Ha).
    split_and!; [done..|]. by exists out, w', before, after.
  - split; [done|]. by intros e' [= <-].
Qed.

Example getCurrentBranch_main :
  Async.outcome (getCurrentBranch (collab := Fixtures.on_main) (Some "/repo") [])
  = Resolved "main".
Proof. reflexivity. Qed.

(** ** The optional context *)

(** X24. An empty [context] string counts as no context, in the tool of
    either revision and in the prompt alike: the result is the one
    obtained without [context], and its text then ends right after the
    changes and the two newlines that follow them, with no Additional
    context heading appended. *)
Theorem empty_context_is_no_context
    {collab : Collaborators} (changes repoPath : option string) (text : string)
    (w : World) :
  generate_commit_message
    {| GenerateCommitMessage.changes := changes;
       GenerateCommitMessage.context := Some EmptyString;
       GenerateCommitMessage.repoPath := repoPath |} w
  = generate_commit_message
      {| GenerateCommitMessage.changes := changes;
         GenerateCommitMessage.context := None;
         GenerateCommitMessage.repoPath := repoPath |} w
  ∧ Stdio.generate_commit_message text (Some EmptyString)
    = Stdio.generate_commit_message text None
  ∧ Stdio.commit_message text (Some EmptyString) = Stdio.commit_message text None
  ∧ Tool.text <$> Tool.content (Stdio.generate_commit_message text None)
    = [ "Please generate a clear and descriptive commit message for the following changes:"
        +:+ Js.LF +:+ Js.LF +:+ text +:+ Js.LF +:+ Js.LF ]
  ∧ Js.endsWith
      (default EmptyString
         (head (Tool.text <$> Tool.content (Stdio.generate_commit_message text None))))
      (text +:+ Js.LF +:+ Js.LF) = true.
Proof.
  split_and!; [done | done | done | |].
  - simpl. by rewrite string_app_empty_r.
  - simpl. rewrite string_app_empty_r. do 3 apply endsWith_app_r. apply endsWith_refl.
Qed.

(** X25. The prompt always yields exactly one message, of role user and
    type text, whose text contains the changes as given; with a non-empty
    context the text ends with the Additional context heading, a newline
    and the context as given. The prompt has no failing input. *)
Theorem commit_message_prompt_shape (changes : string) (context : option string) :
  ∃ text,
    Stdio.commit_message changes context
    = {| Prompt.messages :=
           [ {| Prompt.role := "user";
                Prompt.content := {| Tool.type := "text"; Tool.text := text |} |} ] |}
    ∧ Js.startsWith text
        ("Please generate a clear and descriptive commit message for the following changes:"
         +:+ Js.LF +:+ Js.LF +:+ changes +:+ Js.LF +:+ Js.LF) = true
    ∧ Js.includes text changes = true
    ∧ ∀ given, context = Some given → given ≠ EmptyString →
        Js.endsWith text ("Additional context:" +:+ Js.LF +:+ given) = true
        ∧ Js.includes text given = true.
Proof.
  eexists. split; [done|]. split_and!.
  - rewrite <-!string_app_assoc. apply startsWith_app.
  - do 2 apply includes_app_r. apply includes_app.
  - intros given -> Hne. destruct given as [|c given]; [done|].
    cbn [Js.truthy_opt Js.truthy Js.to_string]. split.
    + do 6 apply endsWith_app_r. apply endsWith_refl.
    + do 7 apply includes_app_r. apply includes_app_end.
Qed.
